(** * vektlogg: the weight log's storage engine and request handlers

    A shallow embedding of [src/lib/db.js] (the SQLite table [weights] and the
    functions that run SQL statements on it) and of
    [src/routes/api/weights/+server.js] (the GET, POST, PUT and DELETE
    handlers), with the properties of the specification stated on them.

    Conventions of the model.
    - A JavaScript number is an IEEE 754 value, [spec_float] of the standard
      library: signed zeros, signed infinities, NaN and finite values
      [(-1)^s * m * 2^e].  The code never computes with a weight, it only
      classifies and stores it.
    - Row ids are unbounded integers: the 64-bit limit of a rowid and the
      rounding of [lastInsertRowid] to a double are left out.
    - The table is the list of its rows in rowid order together with the
      counter SQLite keeps in [sqlite_sequence] for an AUTOINCREMENT key.
    - [CURRENT_TIMESTAMP] is read from the environment: the statement that
      inserts a row takes the reading as an argument [now].
    - A TEXT value is compared bytewise (collation BINARY), which is
      [String.compare] on the string's bytes. *)

From Stdlib Require Import ZArith List String Ascii Bool Lia.
From Stdlib Require Import Sorting.Sorted Sorting.Permutation.
From Stdlib Require Import Floats.SpecFloat.
Import ListNotations.

Local Set Warnings "-register-all".

Local Open Scope string_scope.
Local Open Scope Z_scope.

(** ** JavaScript values *)

Module JS.

Definition number : Type := spec_float.

(** [isNaN(x)] for [x] of type number. *)
Definition isNaN (x : number) : bool :=
  match x with
  | S754_nan => true
  | _ => false
  end.

(** [Number.isFinite(x)]. *)
Definition isFinite (x : number) : bool :=
  match x with
  | S754_zero _ | S754_finite _ _ _ => true
  | S754_infinity _ | S754_nan => false
  end.

(** [x > 0]. *)
Definition gt_zero (x : number) : bool :=
  match x with
  | S754_finite false _ _ | S754_infinity false => true
  | _ => false
  end.

(** A value as [JSON.parse] builds it, and [undefined] for a property
    that is not there.  The properties of an object are listed in order,
    the first binding of a name is the one that is read. *)
Inductive value : Type :=
| VUndefined
| VNull
| VBool (b : bool)
| VNumber (x : number)
| VString (s : string)
| VArray (items : list value)
| VObject (props : list (string * value)).

Definition typeof (v : value) : string :=
  match v with
  | VUndefined => "undefined"
  | VNull => "object"
  | VBool _ => "boolean"
  | VNumber _ => "number"
  | VString _ => "string"
  | VArray _ => "object"
  | VObject _ => "object"
  end.

(** ToBoolean: [!v] is [negb (truthy v)]. *)
Definition truthy (v : value) : bool :=
  match v with
  | VUndefined | VNull => false
  | VBool b => b
  | VNumber (S754_zero _) | VNumber S754_nan => false
  | VNumber _ => true
  | VString s => negb (s =? "")%string
  | VArray _ | VObject _ => true
  end.

(** [v === true]. *)
Definition strict_true (v : value) : bool :=
  match v with
  | VBool true => true
  | _ => false
  end.

Fixpoint lookup (k : string) (props : list (string * value)) : value :=
  match props with
  | [] => VUndefined
  | (k', v) :: rest => if (k' =? k)%string then v else lookup k rest
  end.

(** Reading property [k] in a destructuring [const { k } = body].  It
    throws a TypeError on [null] and [undefined]; on a string, a number, a
    boolean or an array it yields [undefined] for the names the handlers
    read ([weight], [date], [id], [deleteAll]), none of which those
    prototypes define. *)
Definition get (body : value) (k : string) : option value :=
  match body with
  | VUndefined | VNull => None
  | VObject props => Some (lookup k props)
  | _ => Some VUndefined
  end.

End JS.

Import JS.

(** ** The table [weights] *)

(** One row:
    [id INTEGER PRIMARY KEY AUTOINCREMENT, weight REAL NOT NULL,
     date TEXT NOT NULL UNIQUE, created_at TEXT DEFAULT CURRENT_TIMESTAMP]. *)
Record row : Type := mkRow {
  id : Z;
  weight : number;
  date : string;
  created_at : string
}.

(** The database: the rows of [weights] in rowid order, and the largest
    rowid ever handed out, which [sqlite_sequence] keeps for the table. *)
Record store : Type := mkStore {
  rows : list row;
  seq : Z
}.

(** The database file just created by [CREATE TABLE IF NOT EXISTS]. *)
Definition empty_store : store := mkStore [] 0.

Inductive sqlite_error : Type :=
| SQLITE_CONSTRAINT_UNIQUE
| SQLITE_CONSTRAINT_NOTNULL
| BIND_ERROR.

(** [error.code]; the driver's own TypeError and RangeError carry none. *)
Definition code (e : sqlite_error) : option string :=
  match e with
  | SQLITE_CONSTRAINT_UNIQUE => Some "SQLITE_CONSTRAINT_UNIQUE"
  | SQLITE_CONSTRAINT_NOTNULL => Some "SQLITE_CONSTRAINT_NOTNULL"
  | BIND_ERROR => None
  end.

(** What a call gives back: a value, or an exception thrown. *)
Inductive outcome (A : Type) : Type :=
| Returned (a : A)
| Threw (e : sqlite_error).

Arguments Returned {A} a.
Arguments Threw {A} e.

(** *** SQL statements *)

Module SQL.

Definition has_date (d : string) (r : row) : bool := (date r =? d)%string.

(** [id = ?] with a REAL parameter: an exact numeric comparison of the
    integer key with the double. *)
Definition id_is (x : number) (z : Z) : bool :=
  match x with
  | S754_zero _ => z =? 0
  | S754_finite s m e =>
      let sg := if s then -1 else 1 in
      if 0 <=? e then z =? sg * (Z.pos m * 2 ^ e)
      else
        let den := 2 ^ (- e) in
        (Z.pos m mod den =? 0) && (z =? sg * (Z.pos m / den))
  | S754_infinity _ | S754_nan => false
  end.

Definition has_id (x : number) (r : row) : bool := id_is x (id r).

Definition set_weight (w : number) (r : row) : row :=
  mkRow (id r) w (date r) (created_at r).

Fixpoint max_rowid (l : list row) : Z :=
  match l with
  | [] => 0
  | r :: rest => Z.max (id r) (max_rowid rest)
  end.

(** The key of the next row under AUTOINCREMENT: one more than the largest
    key the table has ever held. *)
Definition next_rowid (s : store) : Z :=
  Z.max (seq s) (max_rowid (rows s)) + 1.

(** [INSERT INTO weights (weight, date) VALUES (?, ?)].  A NaN is bound as
    NULL and fails NOT NULL, which is checked before UNIQUE.  A failed
    statement changes nothing.  The result is [lastInsertRowid]. *)
Definition insert (now : string) (w : number) (d : string) (s : store)
  : outcome Z * store :=
  if isNaN w then (Threw SQLITE_CONSTRAINT_NOTNULL, s)
  else if existsb (has_date d) (rows s) then (Threw SQLITE_CONSTRAINT_UNIQUE, s)
  else
    let i := next_rowid s in
    (Returned i, mkStore (rows s ++ [mkRow i w d now]) i).

(** [UPDATE weights SET weight = ? WHERE <cond>], the result is [changes].
    NOT NULL is checked on the rows the statement touches only. *)
Definition update_where (cond : row -> bool) (w : number) (s : store)
  : outcome Z * store :=
  if isNaN w && existsb cond (rows s) then (Threw SQLITE_CONSTRAINT_NOTNULL, s)
  else
    (Returned (Z.of_nat (List.length (filter cond (rows s)))),
     mkStore (map (fun r => if cond r then set_weight w r else r) (rows s))
             (seq s)).

(** [DELETE FROM weights WHERE <cond>], the result is [changes]. *)
Definition delete_where (cond : row -> bool) (s : store) : Z * store :=
  (Z.of_nat (List.length (filter cond (rows s))),
   mkStore (filter (fun r => negb (cond r)) (rows s)) (seq s)).

(** [ORDER BY]: an insertion sort of the rows by [le]. *)
Fixpoint place (le : row -> row -> bool) (r : row) (l : list row) : list row :=
  match l with
  | [] => [r]
  | r' :: rest => if le r r' then r :: l else r' :: place le r rest
  end.

Definition order_by (le : row -> row -> bool) (l : list row) : list row :=
  fold_right (place le) [] l.

Definition date_asc (a b : row) : bool := (date a <=? date b)%string.
Definition date_desc (a b : row) : bool := (date b <=? date a)%string.

End SQL.

(** ** [src/lib/db.js] *)

(** [{ success: true, id }] or [{ success: true, updated: true }]: a
    property the object does not have is [None]. *)
Record add_result : Type := mkAdd {
  add_success : bool;
  add_id : option Z;
  add_updated : option bool
}.

(** [{ success: true, changes }]. *)
Record run_result : Type := mkRun {
  run_success : bool;
  changes : Z
}.

(** [SELECT id, weight, date]: a row without [created_at]. *)
Record entry : Type := mkEntry {
  entry_id : Z;
  entry_weight : number;
  entry_date : string
}.

Definition entry_of (r : row) : entry := mkEntry (id r) (weight r) (date r).

Definition is_unique_violation (e : sqlite_error) : bool :=
  match code e with
  | Some c => (c =? "SQLITE_CONSTRAINT_UNIQUE")%string
  | None => false
  end.

Definition addWeight (now : string) (w : number) (d : string) (s : store)
  : outcome add_result * store :=
  match SQL.insert now w d s with
  | (Returned i, s') => (Returned (mkAdd true (Some i) None), s')
  | (Threw error, _) =>
      if is_unique_violation error then
        match SQL.update_where (SQL.has_date d) w s with
        | (Returned _, s') => (Returned (mkAdd true None (Some true)), s')
        | (Threw error', _) => (Threw error', s)
        end
      else (Threw error, s)
  end.

Definition getAllWeights (s : store) : list entry :=
  map entry_of (SQL.order_by SQL.date_asc (rows s)).

Definition getLatestWeight (s : store) : option row :=
  hd_error (SQL.order_by SQL.date_desc (rows s)).

Definition updateWeight (i : number) (w : number) (s : store)
  : outcome run_result * store :=
  match SQL.update_where (SQL.has_id i) w s with
  | (Returned n, s') => (Returned (mkRun true n), s')
  | (Threw error, _) => (Threw error, s)
  end.

Definition deleteWeight (i : number) (s : store) : run_result * store :=
  let (n, s') := SQL.delete_where (SQL.has_id i) s in (mkRun true n, s').

Definition deleteAllWeights (s : store) : run_result * store :=
  let (n, s') := SQL.delete_where (fun _ => true) s in (mkRun true n, s').

(** ** [src/routes/api/weights/+server.js] *)

(** The JSON documents the handlers answer with. *)
Inductive body : Type :=
| Weights (l : list entry)        (* the array of rows *)
| Error (msg : string)            (* { error: msg } *)
| Added (result : add_result)     (* { success: true, ...result } *)
| Success                         (* { success: true } *)
| Deleted (n : Z).                (* { success: true, deleted: n } *)

Record response : Type := mkResponse {
  status : Z;
  payload : body
}.

(** [json(data)] and [json(data, { status })]. *)
Definition json (data : body) : response := mkResponse 200 data.
Definition json_status (data : body) (st : Z) : response := mkResponse st data.

(** The functions of [db.js] a handler calls, with the type of their result.
    A weight or an id is passed once the handler knows it is a number; the
    date of [addWeight] is whatever value the request carried. *)
Inductive call : Type -> Type :=
| GetAllWeights : call (list entry)
| AddWeight (w : number) (d : value) : call add_result
| UpdateWeight (i : number) (w : number) : call run_result
| DeleteWeight (i : number) : call run_result
| DeleteAllWeights : call run_result.

(** A handler, once the request body is read: it answers, or it calls the
    storage engine and goes on with what the call returned or threw. *)
Inductive handler : Type :=
| Respond (r : response)
| Db (A : Type) (c : call A) (k : outcome A -> handler).

Arguments Db {A} c k.

(** [typeof v !== 'number' || isNaN(v)] is false exactly when this is
    [Some x], and [x] is then the number. *)
Definition valid_number (v : value) : option number :=
  match v with
  | VNumber x => if isNaN x then None else Some x
  | _ => None
  end.

(** The handlers take the outcome of [await request.json()]: [None] when
    the body is not JSON, which rejects and lands in [catch]. *)

Definition GET : handler :=
  Db GetAllWeights (fun o =>
    match o with
    | Returned weights => Respond (json (Weights weights))
    | Threw _ => Respond (json_status (Error "Failed to fetch weights") 500)
    end).

Definition POST_catch : handler :=
  Respond (json_status (Error "Failed to add weight") 500).

Definition POST_then (o : outcome add_result) : handler :=
  match o with
  | Returned result => Respond (json (Added result))
  | Threw _ => POST_catch
  end.

Definition POST (request : option value) : handler :=
  match request with
  | None => POST_catch
  | Some parsed =>
      match get parsed "weight", get parsed "date" with
      | Some weight, Some date =>
          match valid_number weight with
          | None =>
              Respond (json_status (Error "Weight must be a valid number") 400)
          | Some w =>
              if negb (truthy date) then
                Respond (json_status (Error "Date is required") 400)
              else Db (AddWeight w date) POST_then
          end
      | _, _ => POST_catch
      end
  end.

Definition PUT_catch : handler :=
  Respond (json_status (Error "Failed to update weight") 500).

Definition PUT_then (o : outcome run_result) : handler :=
  match o with
  | Returned result =>
      if changes result =? 0 then
        Respond (json_status (Error "Entry not found") 404)
      else Respond (json Success)
  | Threw _ => PUT_catch
  end.

Definition PUT (request : option value) : handler :=
  match request with
  | None => PUT_catch
  | Some parsed =>
      match get parsed "id", get parsed "weight" with
      | Some id, Some weight =>
          match valid_number id with
          | None => Respond (json_status (Error "ID must be a valid number") 400)
          | Some i =>
              match valid_number weight with
              | None =>
                  Respond (json_status (Error "Weight must be a valid number") 400)
              | Some w => Db (UpdateWeight i w) PUT_then
              end
          end
      | _, _ => PUT_catch
      end
  end.

Definition DELETE_catch : handler :=
  Respond (json_status (Error "Failed to delete weight") 500).

Definition DELETE_all_then (o : outcome run_result) : handler :=
  match o with
  | Returned result => Respond (json (Deleted (changes result)))
  | Threw _ => DELETE_catch
  end.

Definition DELETE_one_then (o : outcome run_result) : handler :=
  match o with
  | Returned result =>
      if changes result =? 0 then
        Respond (json_status (Error "Entry not found") 404)
      else Respond (json Success)
  | Threw _ => DELETE_catch
  end.

Definition DELETE (request : option value) : handler :=
  match request with
  | None => DELETE_catch
  | Some parsed =>
      match get parsed "id", get parsed "deleteAll" with
      | Some id, Some deleteAll =>
          if strict_true deleteAll then Db DeleteAllWeights DELETE_all_then
          else
            match valid_number id with
            | None => Respond (json_status (Error "ID must be a valid number") 400)
            | Some i => Db (DeleteWeight i) DELETE_one_then
            end
      | _, _ => DELETE_catch
      end
  end.

(** The handler makes a call that [P] holds of, now or after some outcome
    of the calls before it. *)
Fixpoint calls (P : forall A : Type, call A -> Prop) (h : handler) : Prop :=
  match h with
  | Respond _ => False
  | Db c k => P _ c \/ exists o, calls P (k o)
  end.

Definition any_call (A : Type) (c : call A) : Prop := True.

Definition bulk_clear (A : Type) (c : call A) : Prop :=
  match c with
  | DeleteAllWeights => True
  | _ => False
  end.

(** *** Running a handler on the database *)

Section Driver.

(** What the driver and the TEXT affinity of the column make of the value
    bound to [date]: the text stored, or [None] when binding throws.  A
    string is stored as it is; the rest (a number turned into text, an array
    spread over the parameters, a boolean refused) is the driver's, not the
    repository's, and is left open. *)
Variable bind_text : value -> option string.

Definition exec {A : Type} (now : string) (c : call A) (s : store)
  : outcome A * store :=
  match c in call T return outcome T * store with
  | GetAllWeights => (Returned (getAllWeights s), s)
  | AddWeight w d =>
      match bind_text d with
      | Some text => addWeight now w text s
      | None => (Threw BIND_ERROR, s)
      end
  | UpdateWeight i w => updateWeight i w s
  | DeleteWeight i => let (r, s') := deleteWeight i s in (Returned r, s')
  | DeleteAllWeights => let (r, s') := deleteAllWeights s in (Returned r, s')
  end.

Fixpoint run (now : string) (h : handler) (s : store) : response * store :=
  match h with
  | Respond r => (r, s)
  | Db c k => let (o, s') := exec now c s in run now (k o) s'
  end.

End Driver.

(** A driver that binds strings and refuses every other value. *)
Definition strings_only (v : value) : option string :=
  match v with
  | VString d => Some d
  | _ => None
  end.

(** ** Sequences of calls *)

(** One call [addWeight(w, d)] made when the clock reads [now]. *)
Record upsert : Type := mkUpsert {
  at_time : string;
  new_weight : number;
  on_date : string
}.

(** The database after the calls of [l], in order; a call that throws
    leaves the database as it was and the next one goes on. *)
Definition upserts (l : list upsert) (s : store) : store :=
  fold_left
    (fun s c => snd (addWeight (at_time c) (new_weight c) (on_date c) s)) l s.

(** The database after the POST requests of [l], each with the clock
    reading at which it is served. *)
Definition posts (bind_text : value -> option string)
  (l : list (string * option value)) (s : store) : store :=
  fold_left (fun s q => snd (run bind_text (fst q) (POST (snd q)) s)) l s.

(** ** Two calls of [addWeight] in flight

    [addWeight] runs one statement, and a second one when the first throws
    the UNIQUE violation.  SQLite runs a statement as one atomic step; two
    calls served at once (by two processes on the same file) interleave
    between statements.  A call is a thread with three program points. *)
Inductive thread : Type :=
| Ready (now : string) (w : number) (d : string)   (* before the INSERT *)
| Caught (w : number) (d : string)                 (* in [catch], before the UPDATE *)
| Finished (o : outcome add_result).

Definition step (t : thread) (s : store) : thread * store :=
  match t with
  | Ready now w d =>
      match SQL.insert now w d s with
      | (Returned i, s') => (Finished (Returned (mkAdd true (Some i) None)), s')
      | (Threw error, _) =>
          if is_unique_violation error then (Caught w d, s)
          else (Finished (Threw error), s)
      end
  | Caught w d =>
      match SQL.update_where (SQL.has_date d) w s with
      | (Returned _, s') => (Finished (Returned (mkAdd true None (Some true))), s')
      | (Threw error', _) => (Finished (Threw error'), s)
      end
  | Finished _ => (t, s)
  end.

(** Two threads and the database they share. *)
Record system : Type := mkSystem {
  first : thread;
  second : thread;
  shared : store
}.

(** A schedule names the thread that takes each step: [true] the first,
    [false] the second.  A finished thread that is scheduled idles. *)
Definition turn (sys : system) (b : bool) : system :=
  if b then
    let (t, s) := step (first sys) (shared sys) in mkSystem t (second sys) s
  else
    let (t, s) := step (second sys) (shared sys) in mkSystem (first sys) t s.

Definition interleave (schedule : list bool) (sys : system) : system :=
  fold_left turn schedule sys.

(** The steps a thread still has to take, at most. *)
Definition pending (t : thread) : nat :=
  match t with
  | Ready _ _ _ => 2%nat
  | Caught _ _ => 1%nat
  | Finished _ => 0%nat
  end.

(** A schedule is complete when it gives each call the two steps it may
    need. *)
Definition complete (schedule : list bool) : Prop :=
  (2 <= count_occ bool_dec schedule true)%nat /\
  (2 <= count_occ bool_dec schedule false)%nat.

(** ** Vocabulary of the properties *)

(** The UNIQUE constraint as an invariant of the table. *)
Definition unique_dates (s : store) : Prop := NoDup (map date (rows s)).

(** What a second write for date [d] does to a row [r] of the table: [r'] is
    [r] with weight [w] if [r] is the row of [d], and [r] itself if not. *)
Definition rewritten (d : string) (w : number) (r r' : row) : Prop :=
  id r' = id r /\ date r' = date r /\ created_at r' = created_at r /\
  weight r' = if SQL.has_date d r then w else weight r.

(** The two readings of a valid weight: a finite number, as the
    specification words it, and a number other than NaN, as POST tests it. *)
Definition is_finite_number (v : value) : bool :=
  match v with
  | VNumber x => isFinite x
  | _ => false
  end.

Definition is_number_not_NaN (v : value) : bool :=
  match v with
  | VNumber x => negb (isNaN x)
  | _ => false
  end.

(** The states two calls [addWeight(w1, d)] and [addWeight(w2, d)] can be
    in, started on a table [s] with no row of date [d]: nobody has written;
    or one call has inserted the row, under the id [i] that was next, and
    the other is still before its INSERT, or in [catch], or has updated. *)
Inductive race (n1 n2 : string) (w1 w2 : number) (d : string) (s : store)
  : system -> Prop :=
| race_start :
    race n1 n2 w1 w2 d s (mkSystem (Ready n1 w1 d) (Ready n2 w2 d) s)
| race_first_in :
    race n1 n2 w1 w2 d s
      (mkSystem (Finished (Returned (mkAdd true (Some (SQL.next_rowid s)) None)))
                (Ready n2 w2 d)
                (mkStore (rows s ++ [mkRow (SQL.next_rowid s) w1 d n1])
                         (SQL.next_rowid s)))
| race_first_in_caught :
    race n1 n2 w1 w2 d s
      (mkSystem (Finished (Returned (mkAdd true (Some (SQL.next_rowid s)) None)))
                (Caught w2 d)
                (mkStore (rows s ++ [mkRow (SQL.next_rowid s) w1 d n1])
                         (SQL.next_rowid s)))
| race_first_in_done :
    race n1 n2 w1 w2 d s
      (mkSystem (Finished (Returned (mkAdd true (Some (SQL.next_rowid s)) None)))
                (Finished (Returned (mkAdd true None (Some true))))
                (mkStore (rows s ++ [mkRow (SQL.next_rowid s) w2 d n1])
                         (SQL.next_rowid s)))
| race_second_in :
    race n1 n2 w1 w2 d s
      (mkSystem (Ready n1 w1 d)
                (Finished (Returned (mkAdd true (Some (SQL.next_rowid s)) None)))
                (mkStore (rows s ++ [mkRow (SQL.next_rowid s) w2 d n2])
                         (SQL.next_rowid s)))
| race_second_in_caught :
    race n1 n2 w1 w2 d s
      (mkSystem (Caught w1 d)
                (Finished (Returned (mkAdd true (Some (SQL.next_rowid s)) None)))
                (mkStore (rows s ++ [mkRow (SQL.next_rowid s) w2 d n2])
                         (SQL.next_rowid s)))
| race_second_in_done :
    race n1 n2 w1 w2 d s
      (mkSystem (Finished (Returned (mkAdd true None (Some true))))
                (Finished (Returned (mkAdd true (Some (SQL.next_rowid s)) None)))
                (mkStore (rows s ++ [mkRow (SQL.next_rowid s) w1 d n2])
                         (SQL.next_rowid s))).

(** ** The API as a whole *)

(** A request to [/api/weights]: the method picks the handler, and every
    method but GET comes with the outcome of reading its body. *)
Inductive request : Type :=
| ReqGET
| ReqPOST (parsed : option value)
| ReqPUT (parsed : option value)
| ReqDELETE (parsed : option value).

Definition route (q : request) : handler :=
  match q with
  | ReqGET => GET
  | ReqPOST parsed => POST parsed
  | ReqPUT parsed => PUT parsed
  | ReqDELETE parsed => DELETE parsed
  end.

(** The database after the requests of [l], each served at its clock
    reading. *)
Definition serve_all (bind_text : value -> option string)
  (l : list (string * request)) (s : store) : store :=
  fold_left (fun s q => snd (run bind_text (fst q) (route (snd q)) s)) l s.

(** What the schema and AUTOINCREMENT keep true of the table: one row per
    date, ids growing along the table, every id between 1 and the sequence
    counter, no NULL (a NaN) in [weight]. *)
Record well_formed (s : store) : Prop := mkWellFormed {
  wf_dates : NoDup (map date (rows s));
  wf_ids : StronglySorted Z.lt (map id (rows s));
  wf_bounds : Forall (fun i => 1 <= i <= seq s) (map id (rows s));
  wf_weights : Forall (fun w => isNaN w = false) (map weight (rows s));
  wf_seq : 0 <= seq s
}.

(** The row the table holds for date [d], the first one should there be
    several. *)
Definition row_on (d : string) (s : store) : option row :=
  find (SQL.has_date d) (rows s).

(** The last weight, NaN apart, that the calls of [l] write for date [d],
    and the clock reading of the first such call. *)
Definition writes (d : string) (c : upsert) : bool :=
  negb (isNaN (new_weight c)) && (on_date c =? d)%string.

Definition last_write (d : string) (l : list upsert) : option number :=
  fold_left (fun acc c => if writes d c then Some (new_weight c) else acc) l None.

Definition first_write (d : string) (l : list upsert) : option string :=
  option_map at_time (find (writes d) l).

(** * Properties *)

(** ** The order on dates *)

Lemma ascii_compare_trans (a b c : ascii) (o : comparison) :
  Ascii.compare a b = o -> Ascii.compare b c = o -> Ascii.compare a c = o.
Proof.
  unfold Ascii.compare. destruct o; intros H1 H2.
  - apply N.compare_eq_iff in H1, H2. apply N.compare_eq_iff. congruence.
  - rewrite N.compare_lt_iff in *. lia.
  - rewrite N.compare_gt_iff in *. lia.
Qed.

Lemma string_leb_trans (a b c : string) :
  (a <=? b)%string = true -> (b <=? c)%string = true -> (a <=? c)%string = true.
Proof.
  unfold String.leb. revert b c.
  induction a as [|x a IH]; intros [|y b] [|z c]; simpl; try congruence.
  destruct (Ascii.compare x y) eqn:Hxy; try congruence;
    destruct (Ascii.compare y z) eqn:Hyz; try congruence; intros H1 H2.
  - rewrite (ascii_compare_trans _ _ _ _ Hxy Hyz). now apply IH with b.
  - apply Ascii.compare_eq_iff in Hxy. subst y. now rewrite Hyz.
  - apply Ascii.compare_eq_iff in Hyz. subst z. now rewrite Hxy.
  - now rewrite (ascii_compare_trans _ _ _ _ Hxy Hyz).
Qed.

Lemma string_leb_refl (a : string) : (a <=? a)%string = true.
Proof. destruct (String.leb_total a a); assumption. Qed.

Lemma string_ltb_leb_neq (a b : string) :
  (a <=? b)%string = true -> a <> b -> (a <? b)%string = true.
Proof.
  unfold String.leb, String.ltb. intros H N.
  destruct (String.compare a b) eqn:E; try congruence.
  apply String.compare_eq_iff in E. contradiction.
Qed.

Lemma string_ltb_irrefl (a : string) : (a <? a)%string = false.
Proof.
  unfold String.ltb. pose proof (String.compare_antisym a a) as H.
  destruct (String.compare a a); simpl in H; congruence.
Qed.

(** ** [ORDER BY] sorts *)

Section OrderBy.

Variable le : row -> row -> bool.
Hypothesis le_total : forall a b, le a b = true \/ le b a = true.
Hypothesis le_trans : forall a b c, le a b = true -> le b c = true -> le a c = true.

Let R (a b : row) : Prop := le a b = true.

Lemma place_perm (r : row) (l : list row) :
  Permutation (SQL.place le r l) (r :: l).
Proof.
  induction l as [|r' rest IH]; simpl.
  - apply Permutation_refl.
  - destruct (le r r').
    + apply Permutation_refl.
    + eapply perm_trans; [apply perm_skip, IH | apply perm_swap].
Qed.

Lemma order_by_perm (l : list row) : Permutation (SQL.order_by le l) l.
Proof.
  induction l as [|r rest IH]; simpl.
  - apply perm_nil.
  - eapply perm_trans; [apply place_perm | apply perm_skip, IH].
Qed.

Lemma place_sorted (r : row) (l : list row) :
  StronglySorted R l -> StronglySorted R (SQL.place le r l).
Proof.
  induction l as [|r' rest IH]; simpl; intros Hs.
  - constructor; [constructor | constructor].
  - inversion Hs as [|? ? Hrest Hall]; subst.
    destruct (le r r') eqn:E.
    + constructor; [assumption|].
      constructor; [exact E|].
      eapply Forall_impl; [|exact Hall].
      intros c Hc. exact (le_trans _ _ _ E Hc).
    + constructor; [now apply IH|].
      apply (Permutation_Forall (Permutation_sym (place_perm r rest))).
      constructor; [|assumption].
      destruct (le_total r r') as [H|H]; [congruence | exact H].
Qed.

Lemma order_by_sorted (l : list row) : StronglySorted R (SQL.order_by le l).
Proof.
  induction l as [|r rest IH]; simpl.
  - constructor.
  - now apply place_sorted.
Qed.

End OrderBy.

Lemma date_asc_total (a b : row) :
  SQL.date_asc a b = true \/ SQL.date_asc b a = true.
Proof. apply String.leb_total. Qed.

Lemma date_asc_trans (a b c : row) :
  SQL.date_asc a b = true -> SQL.date_asc b c = true -> SQL.date_asc a c = true.
Proof. apply string_leb_trans. Qed.

Lemma date_desc_total (a b : row) :
  SQL.date_desc a b = true \/ SQL.date_desc b a = true.
Proof. apply String.leb_total. Qed.

Lemma date_desc_trans (a b c : row) :
  SQL.date_desc a b = true -> SQL.date_desc b c = true -> SQL.date_desc a c = true.
Proof. unfold SQL.date_desc. intros H1 H2. exact (string_leb_trans _ _ _ H2 H1). Qed.

(** A list sorted by a reflexive order whose keys are pairwise distinct is
    sorted strictly. *)
Lemma sorted_distinct_strict (l : list row) :
  StronglySorted (fun a b => SQL.date_asc a b = true) l ->
  NoDup (map date l) ->
  StronglySorted (fun a b => (date a <? date b)%string = true) l.
Proof.
  induction 1 as [|r rest Hs IH Hall]; intros Hnd; simpl in Hnd.
  - constructor.
  - inversion Hnd as [|? ? Hnotin Hnd']; subst.
    constructor; [now apply IH|].
    rewrite Forall_forall in *. intros c Hc.
    apply string_ltb_leb_neq; [exact (Hall c Hc)|].
    intros E. apply Hnotin. rewrite E. now apply in_map.
Qed.

(** ** The statements on the table *)

Lemma existsb_false_filter (cond : row -> bool) (l : list row) :
  existsb cond l = false -> filter cond l = [].
Proof.
  induction l as [|r rest IH]; simpl; [reflexivity|].
  destruct (cond r); simpl; [discriminate | exact IH].
Qed.

Lemma existsb_false_map (cond : row -> bool) (f : row -> row) (l : list row) :
  existsb cond l = false -> map (fun r => if cond r then f r else r) l = l.
Proof.
  induction l as [|r rest IH]; simpl; [reflexivity|].
  destruct (cond r); simpl; [discriminate|].
  intros H. now rewrite IH.
Qed.

Lemma existsb_has_date (d : string) (l : list row) :
  existsb (SQL.has_date d) l = true <-> In d (map date l).
Proof.
  rewrite existsb_exists, in_map_iff. unfold SQL.has_date.
  split; intros [r [H1 H2]]; exists r.
  - apply String.eqb_eq in H2. now split.
  - split; [assumption | now apply String.eqb_eq].
Qed.

Lemma update_keeps_dates (cond : row -> bool) (w : number) (l : list row) :
  map date (map (fun r => if cond r then SQL.set_weight w r else r) l) = map date l.
Proof.
  rewrite map_map. apply map_ext. intros r. now destruct (cond r).
Qed.

(** The outcome of the INSERT, case by case. *)
Lemma insert_fresh (now : string) (w : number) (d : string) (s : store) :
  isNaN w = false -> existsb (SQL.has_date d) (rows s) = false ->
  SQL.insert now w d s =
    (Returned (SQL.next_rowid s),
     mkStore (rows s ++ [mkRow (SQL.next_rowid s) w d now]) (SQL.next_rowid s)).
Proof. intros Hw Hd. unfold SQL.insert. now rewrite Hw, Hd. Qed.

Lemma insert_taken (now : string) (w : number) (d : string) (s : store) :
  isNaN w = false -> existsb (SQL.has_date d) (rows s) = true ->
  SQL.insert now w d s = (Threw SQLITE_CONSTRAINT_UNIQUE, s).
Proof. intros Hw Hd. unfold SQL.insert. now rewrite Hw, Hd. Qed.

Lemma update_number (cond : row -> bool) (w : number) (s : store) :
  isNaN w = false ->
  SQL.update_where cond w s =
    (Returned (Z.of_nat (List.length (filter cond (rows s)))),
     mkStore (map (fun r => if cond r then SQL.set_weight w r else r) (rows s))
             (seq s)).
Proof. intros Hw. unfold SQL.update_where. now rewrite Hw. Qed.

(** [addWeight], case by case. *)
Lemma addWeight_fresh (now : string) (w : number) (d : string) (s : store) :
  isNaN w = false -> existsb (SQL.has_date d) (rows s) = false ->
  addWeight now w d s =
    (Returned (mkAdd true (Some (SQL.next_rowid s)) None),
     mkStore (rows s ++ [mkRow (SQL.next_rowid s) w d now]) (SQL.next_rowid s)).
Proof. intros Hw Hd. unfold addWeight. now rewrite insert_fresh. Qed.

Lemma addWeight_taken (now : string) (w : number) (d : string) (s : store) :
  isNaN w = false -> existsb (SQL.has_date d) (rows s) = true ->
  addWeight now w d s =
    (Returned (mkAdd true None (Some true)),
     mkStore (map (fun r => if SQL.has_date d r then SQL.set_weight w r else r)
                  (rows s)) (seq s)).
Proof.
  intros Hw Hd. unfold addWeight. rewrite insert_taken by assumption.
  simpl. now rewrite update_number.
Qed.

Lemma addWeight_NaN (now : string) (w : number) (d : string) (s : store) :
  isNaN w = true -> addWeight now w d s = (Threw SQLITE_CONSTRAINT_NOTNULL, s).
Proof. intros Hw. unfold addWeight, SQL.insert. now rewrite Hw. Qed.

(** The three cases cover every call. *)
Lemma addWeight_cases (now : string) (w : number) (d : string) (s : store) :
  addWeight now w d s = (Threw SQLITE_CONSTRAINT_NOTNULL, s) /\ isNaN w = true
  \/ isNaN w = false /\ existsb (SQL.has_date d) (rows s) = false /\
     addWeight now w d s =
       (Returned (mkAdd true (Some (SQL.next_rowid s)) None),
        mkStore (rows s ++ [mkRow (SQL.next_rowid s) w d now]) (SQL.next_rowid s))
  \/ isNaN w = false /\ existsb (SQL.has_date d) (rows s) = true /\
     addWeight now w d s =
       (Returned (mkAdd true None (Some true)),
        mkStore (map (fun r => if SQL.has_date d r then SQL.set_weight w r else r)
                     (rows s)) (seq s)).
Proof.
  destruct (isNaN w) eqn:Hw.
  - left. split; [now apply addWeight_NaN | reflexivity].
  - right. destruct (existsb (SQL.has_date d) (rows s)) eqn:Hd.
    + right. repeat split. now apply addWeight_taken.
    + left. repeat split. now apply addWeight_fresh.
Qed.

Lemma addWeight_unique_dates (now : string) (w : number) (d : string) (s : store) :
  unique_dates s -> unique_dates (snd (addWeight now w d s)).
Proof.
  unfold unique_dates. intros Hnd.
  destruct (addWeight_cases now w d s) as [[E _]|[[_ [Hd E]]|[_ [_ E]]]];
    rewrite E; simpl.
  - assumption.
  - rewrite map_app. simpl.
    apply Permutation_NoDup with (l := d :: map date (rows s)).
    + apply Permutation_cons_append.
    + constructor; [|assumption].
      rewrite <- existsb_has_date. congruence.
  - now rewrite update_keeps_dates.
Qed.

Lemma upserts_unique_dates (l : list upsert) (s : store) :
  unique_dates s -> unique_dates (upserts l s).
Proof.
  revert s. induction l as [|c rest IH]; intros s Hs; simpl.
  - assumption.
  - apply IH. now apply addWeight_unique_dates.
Qed.

Lemma max_rowid_bound (l : list row) (r : row) : In r l -> id r <= SQL.max_rowid l.
Proof.
  induction l as [|r' rest IH]; simpl; [contradiction|].
  intros [E|H]; [subst; lia | specialize (IH H); lia].
Qed.

Lemma next_rowid_fresh (s : store) : ~ In (SQL.next_rowid s) (map id (rows s)).
Proof.
  intros H. apply in_map_iff in H. destruct H as [r [E H]].
  apply max_rowid_bound in H. unfold SQL.next_rowid in E. lia.
Qed.

Lemma strongly_sorted_map {A B : Type} (f : A -> B) (P : B -> B -> Prop) (l : list A) :
  StronglySorted (fun a b => P (f a) (f b)) l -> StronglySorted P (map f l).
Proof.
  induction 1 as [|a rest Hs IH Hall]; simpl; constructor; [assumption|].
  rewrite Forall_forall in *. intros b Hb.
  apply in_map_iff in Hb. destruct Hb as [c [E Hc]]. subst b. now apply Hall.
Qed.

(** ** The storage engine *)

Lemma rewritten_map (d : string) (w : number) (l : list row) :
  Forall2 (rewritten d w) l
    (map (fun r => if SQL.has_date d r then SQL.set_weight w r else r) l).
Proof.
  induction l as [|r rest IH]; simpl; constructor; [|exact IH].
  unfold rewritten. destruct (SQL.has_date d r); simpl; repeat split.
Qed.

(** C1. For every weight [w] (a number, NaN apart) and date [d]:
    [addWeight(w, d)] with no row of date [d] in the table returns, adds one
    row [(i, w, d, now)] with a new id after the rows there were, so the
    count goes up by exactly 1; with a row of date [d] in the table it
    returns, keeps the count, and every row keeps its id, date and
    [created_at], the row of [d] getting weight [w] and the others keeping
    theirs. *)
Theorem addWeight_upsert (now : string) (w : number) (d : string) (s : store) :
  isNaN w = false ->
  let s' := snd (addWeight now w d s) in
  (~ In d (map date (rows s)) ->
     (exists result, fst (addWeight now w d s) = Returned result) /\
     List.length (rows s') = S (List.length (rows s)) /\
     exists i, rows s' = (rows s ++ [mkRow i w d now])%list /\ ~ In i (map id (rows s)))
  /\
  (In d (map date (rows s)) ->
     (exists result, fst (addWeight now w d s) = Returned result) /\
     List.length (rows s') = List.length (rows s) /\
     Forall2 (rewritten d w) (rows s) (rows s')).
Proof.
  intros Hw s'. subst s'. split; intros Hd.
  - assert (Hf : existsb (SQL.has_date d) (rows s) = false).
    { destruct (existsb (SQL.has_date d) (rows s)) eqn:E; [|reflexivity].
      apply existsb_has_date in E. contradiction. }
    rewrite (addWeight_fresh now w d s Hw Hf). simpl. repeat split.
    + eexists. reflexivity.
    + rewrite length_app. simpl. lia.
    + exists (SQL.next_rowid s). split; [reflexivity | apply next_rowid_fresh].
  - apply existsb_has_date in Hd.
    rewrite (addWeight_taken now w d s Hw Hd). simpl. repeat split.
    + eexists. reflexivity.
    + apply length_map.
    + apply rewritten_map.
Qed.

(** C1, at 75.5 kg on 2024-01-01 in the empty table. *)
Lemma addWeight_upsert_witness :
  isNaN (S754_finite false 151 (-1)) = false /\
  List.length
    (rows (snd (addWeight "2024-01-01 08:00:00" (S754_finite false 151 (-1))
                  "2024-01-01" empty_store))) = 1%nat.
Proof.
  split; [reflexivity|].
  destruct (addWeight_upsert "2024-01-01 08:00:00" (S754_finite false 151 (-1))
              "2024-01-01" empty_store eq_refl) as [Hfresh _].
  destruct (Hfresh (fun H => H)) as [_ [Hlen _]]. exact Hlen.
Defined.

(** C2. After any finite sequence of [addWeight] calls on the empty table,
    in any order, [getAllWeights()] lists the rows of the table, no two of
    them with the same date, strictly ascending by date. *)
Theorem upserts_listing_strictly_ascending (l : list upsert) :
  let listing := getAllWeights (upserts l empty_store) in
  Permutation (map entry_of (rows (upserts l empty_store))) listing /\
  NoDup (map entry_date listing) /\
  StronglySorted (fun a b => (entry_date a <? entry_date b)%string = true) listing.
Proof.
  intros listing. subst listing. unfold getAllWeights.
  set (t := rows (upserts l empty_store)).
  assert (Hnd : NoDup (map date t)).
  { apply (upserts_unique_dates l empty_store). constructor. }
  assert (Hp : Permutation (SQL.order_by SQL.date_asc t) t) by apply order_by_perm.
  assert (Hnd' : NoDup (map date (SQL.order_by SQL.date_asc t))).
  { apply Permutation_NoDup with (l := map date t); [|assumption].
    apply Permutation_map, Permutation_sym, Hp. }
  repeat split.
  - apply Permutation_map, Permutation_sym, Hp.
  - rewrite map_map. exact Hnd'.
  - apply (strongly_sorted_map entry_of
             (fun a b => (entry_date a <? entry_date b)%string = true)).
    simpl. apply sorted_distinct_strict; [|assumption].
    apply order_by_sorted; [apply date_asc_total | apply date_asc_trans].
Qed.

(** C3, as the specification has it: the outcome of [addWeight] would carry the id
    of the row of [d] whether the row was inserted or updated.  A second
    write for 2024-01-01 returns [{ success: true, updated: true }], with no
    id. *)
Lemma addWeight_update_has_no_id :
  ~ (forall (now : string) (w : number) (d : string) (s : store),
       isNaN w = false ->
       exists result i,
         fst (addWeight now w d s) = Returned result /\
         add_id result = Some i /\
         exists r, In r (rows (snd (addWeight now w d s))) /\
                   id r = i /\ date r = d).
Proof.
  intros H.
  destruct (H "2024-01-02 09:00:00" (S754_finite false 76 0) "2024-01-01"
              (mkStore [mkRow 1 (S754_finite false 151 (-1)) "2024-01-01"
                          "2024-01-01 08:00:00"] 1) eq_refl)
    as [result [i [E [Hid _]]]].
  vm_compute in E. inversion E; subst result. discriminate Hid.
Qed.

(** C3, amended. [addWeight(w, d)] on a date with no row returns
    [{ success: true, id }] where [id] is the id of the row it has inserted
    for [d]; on a date with a row it returns
    [{ success: true, updated: true }], which carries no id. *)
Theorem addWeight_result (now : string) (w : number) (d : string) (s : store) :
  isNaN w = false ->
  (~ In d (map date (rows s)) ->
     exists i,
       fst (addWeight now w d s) = Returned (mkAdd true (Some i) None) /\
       In (mkRow i w d now) (rows (snd (addWeight now w d s))) /\
       ~ In i (map id (rows s)))
  /\
  (In d (map date (rows s)) ->
     fst (addWeight now w d s) = Returned (mkAdd true None (Some true))).
Proof.
  intros Hw. split; intros Hd.
  - assert (Hf : existsb (SQL.has_date d) (rows s) = false).
    { destruct (existsb (SQL.has_date d) (rows s)) eqn:E; [|reflexivity].
      apply existsb_has_date in E. contradiction. }
    rewrite (addWeight_fresh now w d s Hw Hf). simpl.
    exists (SQL.next_rowid s). repeat split.
    + apply in_or_app. right. now left.
    + apply next_rowid_fresh.
  - apply existsb_has_date in Hd.
    now rewrite (addWeight_taken now w d s Hw Hd).
Qed.

(** C3 amended, at a second write for 2024-01-01. *)
Lemma addWeight_result_witness :
  isNaN (S754_finite false 76 0) = false /\
  fst (addWeight "2024-01-02 09:00:00" (S754_finite false 76 0) "2024-01-01"
         (mkStore [mkRow 1 (S754_finite false 151 (-1)) "2024-01-01"
                     "2024-01-01 08:00:00"] 1))
  = Returned (mkAdd true None (Some true)).
Proof.
  split; [reflexivity|].
  apply (addWeight_result "2024-01-02 09:00:00" (S754_finite false 76 0)
           "2024-01-01"
           (mkStore [mkRow 1 (S754_finite false 151 (-1)) "2024-01-01"
                       "2024-01-01 08:00:00"] 1) eq_refl).
  simpl. now left.
Defined.

(** An integral double [m * 2^0] selects the row whose id is [m]. *)
Lemma id_is_integer (m : positive) (z : Z) :
  SQL.id_is (S754_finite false m 0) z = (z =? Z.pos m).
Proof.
  unfold SQL.id_is. simpl. f_equal. rewrite Pos.mul_1_r. reflexivity.
Qed.

(** C6. For every id that is the id of no row and every weight [w] (NaN
    too), [updateWeight(id, w)] returns [changes = 0] and leaves the
    database as it was: no row added, every row with its id, weight, date
    and [created_at]. *)
Theorem updateWeight_unknown_id (i w : number) (s : store) :
  (forall r, In r (rows s) -> SQL.has_id i r = false) ->
  updateWeight i w s = (Returned (mkRun true 0), s).
Proof.
  intros Hno.
  assert (Hex : existsb (SQL.has_id i) (rows s) = false).
  { destruct (existsb (SQL.has_id i) (rows s)) eqn:E; [|reflexivity].
    apply existsb_exists in E. destruct E as [r [Hin Hr]].
    rewrite (Hno r Hin) in Hr. discriminate. }
  unfold updateWeight, SQL.update_where.
  rewrite Hex, andb_false_r.
  rewrite (existsb_false_filter _ _ Hex), (existsb_false_map _ _ _ Hex).
  destruct s. reflexivity.
Qed.

(** C6, at [updateWeight(999, 80.0)] on a table with ids 1 and 2. *)
Lemma updateWeight_unknown_id_witness :
  let s := mkStore [mkRow 1 (S754_finite false 76 0) "2024-01-01" "2024-01-01 08:00:00";
                    mkRow 2 (S754_finite false 74 0) "2023-12-31" "2024-01-01 08:05:00"] 2 in
  updateWeight (S754_finite false 999 0) (S754_finite false 80 0) s
  = (Returned (mkRun true 0), s).
Proof.
  intros s. apply updateWeight_unknown_id.
  intros r [E|[E|[]]]; subst r; reflexivity.
Defined.

(** C7. [deleteAllWeights()] returns, with [changes] the number of rows
    there were, and after it the table and [getAllWeights()] are empty; on a
    table that is empty already, [changes] is 0. *)
Theorem deleteAllWeights_clears (s : store) :
  fst (deleteAllWeights s) = mkRun true (Z.of_nat (List.length (rows s))) /\
  rows (snd (deleteAllWeights s)) = [] /\
  getAllWeights (snd (deleteAllWeights s)) = [] /\
  (forall q, fst (deleteAllWeights (mkStore [] q)) = mkRun true 0).
Proof.
  assert (Hall : forall l : list row, filter (fun _ => true) l = l).
  { induction l as [|r rest IH]; simpl; [reflexivity | now rewrite IH]. }
  assert (Hnone : forall l : list row, filter (fun _ => negb true) l = []).
  { induction l as [|r rest IH]; simpl; [reflexivity | exact IH]. }
  unfold deleteAllWeights, SQL.delete_where, getAllWeights. simpl.
  rewrite Hall, Hnone. repeat split.
Qed.

(** C8. In every state of the table [getLatestWeight()] is [undefined]
    when the table has no row and only then; otherwise it is a row of the
    table whose date is the maximum: no row has a later date. *)
Theorem getLatestWeight_max (s : store) :
  match getLatestWeight s with
  | None => rows s = []
  | Some r =>
      In r (rows s) /\
      Forall (fun r' => (date r' <=? date r)%string = true) (rows s)
  end.
Proof.
  unfold getLatestWeight.
  pose proof (order_by_perm SQL.date_desc (rows s)) as Hp.
  pose proof (order_by_sorted SQL.date_desc date_desc_total date_desc_trans (rows s)) as Hs.
  destruct (SQL.order_by SQL.date_desc (rows s)) as [|r rest]; simpl.
  - apply Permutation_nil. exact Hp.
  - split.
    + apply (Permutation_in r Hp). now left.
    + apply (Permutation_Forall Hp).
      inversion Hs as [|? ? _ Hall]; subst.
      constructor; [apply string_leb_refl | exact Hall].
Qed.

(** ** The request handlers *)

(** [valid_number] is the guard of the source:
    [typeof v !== 'number' || isNaN(v)] holds exactly when it is [None]. *)
Lemma valid_number_guard (v : value) :
  valid_number v = None <->
  typeof v <> "number" \/ exists x, v = VNumber x /\ isNaN x = true.
Proof.
  destruct v; simpl; try (split; [intros _; left; discriminate | reflexivity]).
  destruct (isNaN x) eqn:E; split.
  - intros _. right. now exists x.
  - reflexivity.
  - discriminate.
  - intros [H|[y [H1 H2]]]; [now contradiction H|].
    inversion H1; subst. congruence.
Qed.

Lemma valid_number_Some (v : value) (x : number) :
  valid_number v = Some x <-> v = VNumber x /\ isNaN x = false.
Proof.
  destruct v; simpl; try (split; [discriminate | intros [H _]; discriminate]).
  destruct (isNaN x0) eqn:E; split.
  - discriminate.
  - intros [H1 H2]. inversion H1; subst. congruence.
  - intros H; inversion H; subst. now split.
  - intros [H1 _]. inversion H1; subst. reflexivity.
Qed.

Lemma valid_number_None (v : value) :
  valid_number v = None <-> is_number_not_NaN v = false.
Proof.
  destruct v; simpl; try (split; reflexivity).
  destruct (isNaN x); simpl; split; congruence.
Qed.

(** C5, as the specification has it: a weight that is not a finite number would be
    answered with 400.  The body [{ weight: 1e999, date: "2024-01-01" }]
    parses to the weight [Infinity], a number that is not NaN, and POST
    goes on to [addWeight]. *)
Lemma POST_accepts_infinity :
  ~ (forall parsed weight date : value,
       get parsed "weight" = Some weight ->
       get parsed "date" = Some date ->
       (is_finite_number weight = false \/ truthy date = false ->
          exists msg,
            POST (Some parsed) = Respond (json_status (Error msg) 400)) /\
       (is_finite_number weight = true -> truthy date = true ->
          exists w, POST (Some parsed) = Db (AddWeight w date) POST_then)).
Proof.
  intros H.
  destruct (H (VObject [("weight", VNumber (S754_infinity false));
                        ("date", VString "2024-01-01")])
              (VNumber (S754_infinity false)) (VString "2024-01-01")
              eq_refl eq_refl) as [H400 _].
  destruct (H400 (or_introl eq_refl)) as [msg E].
  vm_compute in E. discriminate E.
Qed.

(** C5, amended. With the body read, POST answers 400 and calls nothing
    in [db.js] whenever [weight] is not a number or is NaN, or [date] is
    absent or empty (any falsy value); for every number other than NaN,
    the infinities among them, and every non-empty date it goes on to
    [addWeight(weight, date)]. *)
Theorem POST_validation (parsed weight date : value) :
  get parsed "weight" = Some weight ->
  get parsed "date" = Some date ->
  (is_number_not_NaN weight = false \/ truthy date = false ->
     (exists msg, POST (Some parsed) = Respond (json_status (Error msg) 400)) /\
     ~ calls any_call (POST (Some parsed))) /\
  (forall w, weight = VNumber w -> isNaN w = false -> truthy date = true ->
     POST (Some parsed) = Db (AddWeight w date) POST_then).
Proof.
  intros Hw Hd. unfold POST. rewrite Hw, Hd. split.
  - intros Hbad.
    destruct (valid_number weight) as [w|] eqn:Ev.
    + destruct Hbad as [Hbad|Hbad].
      * apply valid_number_None in Hbad. congruence.
      * rewrite Hbad. simpl. split; [eexists; reflexivity | tauto].
    + simpl. split; [eexists; reflexivity | tauto].
  - intros w E Hn Ht. subst weight.
    assert (Ev : valid_number (VNumber w) = Some w) by now apply valid_number_Some.
    rewrite Ev, Ht. reflexivity.
Qed.

(** C5 amended, at [{ weight: 1e999, date: "2024-01-01" }]. *)
Lemma POST_validation_witness :
  POST (Some (VObject [("weight", VNumber (S754_infinity false));
                       ("date", VString "2024-01-01")]))
  = Db (AddWeight (S754_infinity false) (VString "2024-01-01")) POST_then.
Proof.
  destruct (POST_validation
              (VObject [("weight", VNumber (S754_infinity false));
                        ("date", VString "2024-01-01")])
              (VNumber (S754_infinity false)) (VString "2024-01-01")
              eq_refl eq_refl) as [_ Hgo].
  exact (Hgo (S754_infinity false) eq_refl eq_refl eq_refl).
Defined.

(** *** What the create path stores *)

Lemma addWeight_weights (P : number -> Prop) (now : string) (w : number)
  (d : string) (s : store) :
  P w ->
  Forall (fun r => P (weight r)) (rows s) ->
  Forall (fun r => P (weight r)) (rows (snd (addWeight now w d s))).
Proof.
  intros Hw Hs.
  destruct (addWeight_cases now w d s) as [[E _]|[[_ [_ E]]|[_ [_ E]]]];
    rewrite E; simpl.
  - assumption.
  - apply Forall_app. split; [assumption|]. constructor; [exact Hw | constructor].
  - rewrite Forall_forall in *. intros r Hr.
    apply in_map_iff in Hr. destruct Hr as [r0 [E0 Hr0]]. subst r.
    destruct (SQL.has_date d r0); simpl; auto.
Qed.

Lemma run_POST_weights (bind_text : value -> option string) (now : string)
  (request : option value) (s : store) :
  Forall (fun r => isNaN (weight r) = false) (rows s) ->
  Forall (fun r => isNaN (weight r) = false)
         (rows (snd (run bind_text now (POST request) s))).
Proof.
  intros Hs. unfold POST.
  destruct request as [parsed|]; [|exact Hs].
  destruct (get parsed "weight") as [weight|]; [|exact Hs].
  destruct (get parsed "date") as [date|]; [|exact Hs].
  destruct (valid_number weight) as [w|] eqn:Ev; [|exact Hs].
  apply valid_number_Some in Ev. destruct Ev as [_ Hw].
  destruct (truthy date); simpl; [|exact Hs].
  destruct (bind_text date) as [text|].
  - pose proof (addWeight_weights (fun x => isNaN x = false) now w text s Hw Hs) as H.
    destruct (addWeight now w text s) as [[result|e] s']; simpl in *; exact H.
  - exact Hs.
Qed.

(** C4, as the specification has it: every weight the create path stores would be
    finite and greater than zero.  POST with the body
    [{ weight: -5, date: "2024-01-01" }] on the empty table stores a row of
    weight -5. *)
Lemma POST_stores_negative_weight :
  ~ (forall (bind_text : value -> option string),
       (forall d, bind_text (VString d) = Some d) ->
       forall l : list (string * option value),
         Forall (fun r => isFinite (weight r) = true /\ gt_zero (weight r) = true)
                (rows (posts bind_text l empty_store))).
Proof.
  intros H.
  specialize (H strings_only (fun d => eq_refl)
                [("2024-01-01 08:00:00",
                  Some (VObject [("weight", VNumber (S754_finite true 5 0));
                                 ("date", VString "2024-01-01")]))]).
  vm_compute in H. inversion H as [|r rest [_ Hpos] _]. discriminate Hpos.
Qed.

(** C4, amended. Every weight the create path stores is a number that is
    not NaN: after any sequence of POST requests on the empty table, no row
    has a NaN weight.  (Zero, negative and infinite weights pass the check
    of POST and are stored.) *)
Theorem POST_stores_numbers (bind_text : value -> option string)
  (l : list (string * option value)) :
  Forall (fun r => isNaN (weight r) = false)
         (rows (posts bind_text l empty_store)).
Proof.
  unfold posts.
  assert (H : Forall (fun r => isNaN (weight r) = false) (rows empty_store))
    by constructor.
  revert H. generalize empty_store.
  induction l as [|q rest IH]; intros s Hs; simpl.
  - exact Hs.
  - apply IH. now apply run_POST_weights.
Qed.

(** Zero and [Infinity] are stored as well. *)
Example POST_stores_zero_and_infinity :
  map weight
    (rows (posts strings_only
             [("2024-01-01 08:00:00",
               Some (VObject [("weight", VNumber (S754_zero false));
                              ("date", VString "2024-01-01")]));
              ("2024-01-02 08:00:00",
               Some (VObject [("weight", VNumber (S754_infinity false));
                              ("date", VString "2024-01-02")]))]
             empty_store))
  = [S754_zero false; S754_infinity false].
Proof. reflexivity. Qed.

(** *** The bulk-clear branch of DELETE *)

Lemma strict_true_iff (v : value) : strict_true v = true <-> v = VBool true.
Proof.
  destruct v as [| |[|]| | | |]; simpl; split; congruence.
Qed.

Lemma deleteWeight_keeps (i : number) (s : store) (r : row) :
  In r (rows s) -> SQL.has_id i r = false -> In r (rows (snd (deleteWeight i s))).
Proof.
  intros Hin Hid. unfold deleteWeight, SQL.delete_where. simpl.
  apply filter_In. split; [assumption | now rewrite Hid].
Qed.

Lemma run_DELETE_one (bind_text : value -> option string) (now : string)
  (x : number) (s : store) :
  snd (run bind_text now (Db (DeleteWeight x) DELETE_one_then) s)
  = snd (deleteWeight x s).
Proof.
  unfold deleteWeight, SQL.delete_where. simpl.
  destruct (Z.of_nat (List.length (filter (SQL.has_id x) (rows s))) =? 0);
    reflexivity.
Qed.

(** C10. With the body read, when [deleteAll] is any value other than the
    boolean [true] (absent, truthy strings and numbers, objects), DELETE
    never calls [deleteAllWeights]; it validates [id], answering 400 when
    [id] is not a number or is NaN and calling [deleteWeight(id)] otherwise;
    and every row whose id is not the one requested is still in the table
    afterwards. *)
Theorem DELETE_bulk_only_on_true (parsed i flag : value) :
  get parsed "id" = Some i ->
  get parsed "deleteAll" = Some flag ->
  flag <> VBool true ->
  ~ calls bulk_clear (DELETE (Some parsed)) /\
  match valid_number i with
  | None =>
      DELETE (Some parsed)
      = Respond (json_status (Error "ID must be a valid number") 400)
  | Some x => DELETE (Some parsed) = Db (DeleteWeight x) DELETE_one_then
  end /\
  (forall bind_text now s r,
     In r (rows s) ->
     match valid_number i with
     | None => True
     | Some x => SQL.has_id x r = false
     end ->
     In r (rows (snd (run bind_text now (DELETE (Some parsed)) s)))).
Proof.
  intros Hi Hf Hne. unfold DELETE. rewrite Hi, Hf.
  assert (Hs : strict_true flag = false).
  { destruct (strict_true flag) eqn:E; [|reflexivity].
    apply strict_true_iff in E. contradiction. }
  rewrite Hs.
  destruct (valid_number i) as [x|]; repeat split.
  - simpl. intros [[]|[[result|e] Hc]]; simpl in Hc; [|exact Hc].
    destruct (changes result =? 0); exact Hc.
  - intros bind_text now s r Hin Hid.
    rewrite run_DELETE_one. now apply deleteWeight_keeps.
  - simpl. tauto.
  - intros bind_text now s r Hin _. exact Hin.
Qed.

(** C10, at [{ id: 1, deleteAll: "true" }], the flag a string. *)
Lemma DELETE_bulk_only_on_true_witness :
  DELETE (Some (VObject [("id", VNumber (S754_finite false 1 0));
                         ("deleteAll", VString "true")]))
  = Db (DeleteWeight (S754_finite false 1 0)) DELETE_one_then.
Proof.
  destruct (DELETE_bulk_only_on_true
              (VObject [("id", VNumber (S754_finite false 1 0));
                        ("deleteAll", VString "true")])
              (VNumber (S754_finite false 1 0)) (VString "true")
              eq_refl eq_refl) as [_ [H _]].
  - discriminate.
  - exact H.
Defined.

(** The flag [true] does clear the table, whatever [id] is. *)
Example DELETE_all :
  DELETE (Some (VObject [("deleteAll", VBool true)]))
  = Db DeleteAllWeights DELETE_all_then.
Proof. reflexivity. Qed.

(** ** Two writers on one new date *)

(** A call that runs alone takes its steps one after the other: that is
    [addWeight]. *)
Lemma addWeight_steps (now : string) (w : number) (d : string) (s : store) :
  (let (t, s1) := step (Ready now w d) s in step t s1)
  = (Finished (fst (addWeight now w d s)), snd (addWeight now w d s)).
Proof.
  unfold addWeight. simpl.
  destruct (SQL.insert now w d s) as [[i|e] s1]; simpl; [reflexivity|].
  destruct (is_unique_violation e); simpl; [|reflexivity].
  destruct (SQL.update_where (SQL.has_date d) w s) as [[n|e'] s2]; reflexivity.
Qed.

Lemma step_pending (t : thread) (s : store) :
  (pending (fst (step t s)) <= pred (pending t))%nat.
Proof.
  destruct t as [now w d|w d|o]; simpl.
  - destruct (SQL.insert now w d s) as [[i|e] s1]; simpl; [lia|].
    destruct (is_unique_violation e); simpl; lia.
  - destruct (SQL.update_where (SQL.has_date d) w s) as [[n|e] s1]; simpl; lia.
  - lia.
Qed.

Section TwoWriters.

Variables (n1 n2 : string) (w1 w2 : number) (d : string) (s : store).
Hypothesis number1 : isNaN w1 = false.
Hypothesis number2 : isNaN w2 = false.
Hypothesis fresh : existsb (SQL.has_date d) (rows s) = false.

Lemma step_insert_first (now : string) (w : number) :
  isNaN w = false ->
  step (Ready now w d) s =
    (Finished (Returned (mkAdd true (Some (SQL.next_rowid s)) None)),
     mkStore (rows s ++ [mkRow (SQL.next_rowid s) w d now]) (SQL.next_rowid s)).
Proof. intros Hw. simpl. now rewrite insert_fresh. Qed.

Lemma step_insert_second (now now' : string) (w w' : number) (q : Z) :
  isNaN w = false ->
  step (Ready now w d) (mkStore (rows s ++ [mkRow q w' d now']) q) =
    (Caught w d, mkStore (rows s ++ [mkRow q w' d now']) q).
Proof.
  intros Hw. simpl. rewrite insert_taken; [reflexivity | assumption |].
  simpl. rewrite existsb_app. simpl. unfold SQL.has_date at 2. simpl.
  rewrite String.eqb_refl. now rewrite orb_true_r.
Qed.

Lemma step_update_second (now' : string) (w w' : number) (q : Z) :
  isNaN w = false ->
  step (Caught w d) (mkStore (rows s ++ [mkRow q w' d now']) q) =
    (Finished (Returned (mkAdd true None (Some true))),
     mkStore (rows s ++ [mkRow q w d now']) q).
Proof.
  intros Hw. simpl. rewrite update_number by assumption. simpl.
  rewrite map_app, (existsb_false_map _ _ _ fresh). simpl.
  unfold SQL.has_date at 1. simpl. rewrite String.eqb_refl. reflexivity.
Qed.

Lemma race_turn (sys : system) (b : bool) :
  race n1 n2 w1 w2 d s sys -> race n1 n2 w1 w2 d s (turn sys b).
Proof.
  intros H. destruct H, b; unfold turn;
    cbv beta iota delta [first second shared];
    rewrite ?step_insert_first, ?step_insert_second, ?step_update_second
      by assumption;
    try (cbn [step]); constructor.
Qed.

Lemma race_runs (schedule : list bool) (sys : system) :
  race n1 n2 w1 w2 d s sys ->
  (pending (first sys) <= count_occ bool_dec schedule true)%nat ->
  (pending (second sys) <= count_occ bool_dec schedule false)%nat ->
  race n1 n2 w1 w2 d s (interleave schedule sys) /\
  pending (first (interleave schedule sys)) = 0%nat /\
  pending (second (interleave schedule sys)) = 0%nat.
Proof.
  revert sys. induction schedule as [|b rest IH]; intros sys Hr H1 H2.
  - simpl in *. repeat split; [assumption | lia | lia].
  - simpl. apply IH.
    + now apply race_turn.
    + destruct b; unfold turn; simpl in *.
      * pose proof (step_pending (first sys) (shared sys)) as Hp.
        destruct (step (first sys) (shared sys)) as [t s1]. simpl in *. lia.
      * destruct (step (second sys) (shared sys)) as [t s1]. simpl. exact H1.
    + destruct b; unfold turn; simpl in *.
      * destruct (step (first sys) (shared sys)) as [t s1]. simpl. exact H2.
      * pose proof (step_pending (second sys) (shared sys)) as Hp.
        destruct (step (second sys) (shared sys)) as [t s1]. simpl in *. lia.
Qed.

End TwoWriters.

(** C9. Two calls [addWeight(w1, d)] and [addWeight(w2, d)] in flight on a
    table with no row of date [d], their statements interleaved in any
    order: once both have returned the table holds the rows it had and
    exactly one row of date [d]; one call has inserted it and returns its
    id, the other, whose INSERT came second, has updated it and its weight
    is the one stored; both calls never return as inserts. *)
Theorem concurrent_upserts (n1 n2 : string) (w1 w2 : number) (d : string)
  (s : store) (schedule : list bool) :
  isNaN w1 = false ->
  isNaN w2 = false ->
  ~ In d (map date (rows s)) ->
  complete schedule ->
  let final := interleave schedule (mkSystem (Ready n1 w1 d) (Ready n2 w2 d) s) in
  List.length (filter (SQL.has_date d) (rows (shared final))) = 1%nat /\
  exists i,
    (first final = Finished (Returned (mkAdd true (Some i) None)) /\
     second final = Finished (Returned (mkAdd true None (Some true))) /\
     rows (shared final) = (rows s ++ [mkRow i w2 d n1])%list)
    \/
    (first final = Finished (Returned (mkAdd true None (Some true))) /\
     second final = Finished (Returned (mkAdd true (Some i) None)) /\
     rows (shared final) = (rows s ++ [mkRow i w1 d n2])%list).
Proof.
  intros Hw1 Hw2 Hd [Hc1 Hc2] final.
  assert (Hf : existsb (SQL.has_date d) (rows s) = false).
  { destruct (existsb (SQL.has_date d) (rows s)) eqn:E; [|reflexivity].
    apply existsb_has_date in E. contradiction. }
  assert (Hone : forall r, date r = d ->
            List.length (filter (SQL.has_date d) (rows s ++ [r])) = 1%nat).
  { intros r Hr. rewrite filter_app, (existsb_false_filter _ _ Hf). simpl.
    unfold SQL.has_date. rewrite Hr, String.eqb_refl. reflexivity. }
  destruct (race_runs n1 n2 w1 w2 d s Hw1 Hw2 Hf schedule
              (mkSystem (Ready n1 w1 d) (Ready n2 w2 d) s)
              (race_start n1 n2 w1 w2 d s) Hc1 Hc2) as [Hr [Hp1 Hp2]].
  fold final in Hr, Hp1, Hp2. clearbody final.
  destruct Hr; simpl in Hp1, Hp2; try discriminate; simpl.
  - split; [now apply Hone|]. exists (SQL.next_rowid s). left. repeat split.
  - split; [now apply Hone|]. exists (SQL.next_rowid s). right. repeat split.
Qed.

(** C9, at 75.5 kg and 76 kg for 2024-01-01 on the empty table, the second
    call inserting first. *)
Lemma concurrent_upserts_witness :
  let final :=
    interleave [false; true; true; false]
      (mkSystem (Ready "2024-01-01 08:00:00" (S754_finite false 151 (-1)) "2024-01-01")
                (Ready "2024-01-01 08:00:01" (S754_finite false 76 0) "2024-01-01")
                empty_store) in
  List.length (filter (SQL.has_date "2024-01-01") (rows (shared final))) = 1%nat.
Proof.
  intros final.
  refine (proj1 (concurrent_upserts
            "2024-01-01 08:00:00" "2024-01-01 08:00:01"
            (S754_finite false 151 (-1)) (S754_finite false 76 0)
            "2024-01-01" empty_store [false; true; true; false]
            eq_refl eq_refl (fun H => H) _)).
  split; simpl; lia.
Defined.

(** The interleaving of the witness: the second call inserts, the first is
    the second writer and its 75.5 kg is what the row holds. *)
Example second_writer_wins :
  interleave [false; true; true; false]
    (mkSystem (Ready "2024-01-01 08:00:00" (S754_finite false 151 (-1)) "2024-01-01")
              (Ready "2024-01-01 08:00:01" (S754_finite false 76 0) "2024-01-01")
              empty_store)
  = mkSystem (Finished (Returned (mkAdd true None (Some true))))
             (Finished (Returned (mkAdd true (Some 1) None)))
             (mkStore [mkRow 1 (S754_finite false 151 (-1)) "2024-01-01"
                         "2024-01-01 08:00:01"] 1).
Proof. reflexivity. Qed.

(** ** The scenarios of the specification *)

Example scenario_upserts :
  let s := upserts [mkUpsert "t1" (S754_finite false 151 (-1)) "2024-01-01";
                    mkUpsert "t2" (S754_finite false 76 0) "2024-01-01";
                    mkUpsert "t3" (S754_finite false 74 0) "2023-12-31"]
                   empty_store in
  getAllWeights s
  = [mkEntry 2 (S754_finite false 74 0) "2023-12-31";
     mkEntry 1 (S754_finite false 76 0) "2024-01-01"] /\
  getLatestWeight s = Some (mkRow 1 (S754_finite false 76 0) "2024-01-01" "t1") /\
  fst (updateWeight (S754_finite false 999 0) (S754_finite false 80 0) s)
  = Returned (mkRun true 0) /\
  fst (deleteWeight (S754_finite false 1 0) s) = mkRun true 1 /\
  getAllWeights (snd (deleteWeight (S754_finite false 1 0) s))
  = [mkEntry 2 (S754_finite false 74 0) "2023-12-31"].
Proof. repeat split. Qed.

(** A NaN weight is refused by NOT NULL and the call throws, on a new date
    and on a date that has a row. *)
Example addWeight_NaN_throws :
  addWeight "t" S754_nan "2024-01-01" empty_store
  = (Threw SQLITE_CONSTRAINT_NOTNULL, empty_store).
Proof. reflexivity. Qed.

(** * Beyond the specification: the rest of the engine and of the API *)

(** ** The table stays well formed *)

(** Deleting rows keeps what holds of the keys of the table. *)
Section KeptRows.

Context {K : Type}.
Variable key : row -> K.
Variable keep : row -> bool.

Lemma kept_keys_in (t : list row) (k : K) :
  In k (map key (filter keep t)) -> In k (map key t).
Proof.
  rewrite !in_map_iff. intros [r [E Hr]].
  apply filter_In in Hr. exists r. tauto.
Qed.

Lemma kept_keys_Forall (P : K -> Prop) (t : list row) :
  Forall P (map key t) -> Forall P (map key (filter keep t)).
Proof.
  rewrite !Forall_forall. intros H k Hk. apply H. now apply kept_keys_in.
Qed.

Lemma kept_keys_NoDup (t : list row) :
  NoDup (map key t) -> NoDup (map key (filter keep t)).
Proof.
  induction t as [|r rest IH]; simpl; intros H; [constructor|].
  rewrite NoDup_cons_iff in H. destruct H as [Hnotin Hnd].
  destruct (keep r); simpl; [|now apply IH].
  apply NoDup_cons; [|now apply IH].
  intros Hin. apply Hnotin. now apply kept_keys_in.
Qed.

Lemma kept_keys_sorted (R : K -> K -> Prop) (t : list row) :
  StronglySorted R (map key t) -> StronglySorted R (map key (filter keep t)).
Proof.
  induction t as [|r rest IH]; simpl; intros H; [constructor|].
  apply StronglySorted_inv in H. destruct H as [Hs Hall].
  destruct (keep r); simpl; [|now apply IH].
  constructor; [now apply IH | now apply kept_keys_Forall].
Qed.

End KeptRows.

Lemma sorted_snoc {B : Type} (R : B -> B -> Prop) (l : list B) (x : B) :
  StronglySorted R l -> Forall (fun a => R a x) l -> StronglySorted R (l ++ [x]).
Proof.
  induction 1 as [|a rest Hs IH Hall]; simpl; intros Hx.
  - constructor; constructor.
  - inversion Hx; subst. constructor; [now apply IH|].
    apply Forall_app. split; [assumption | now constructor].
Qed.

Lemma set_weight_keeps {B : Type} (f : row -> B) (cond : row -> bool)
  (w : number) (l : list row) :
  (forall r, f (SQL.set_weight w r) = f r) ->
  map f (map (fun r => if cond r then SQL.set_weight w r else r) l) = map f l.
Proof.
  intros Hf. rewrite map_map. apply map_ext.
  intros r. destruct (cond r); [apply Hf | reflexivity].
Qed.

Lemma well_formed_next (s : store) :
  well_formed s -> SQL.next_rowid s = seq s + 1.
Proof.
  intros [_ _ Hb _ Hq]. unfold SQL.next_rowid.
  assert (H : SQL.max_rowid (rows s) <= seq s).
  { clear -Hb Hq. induction (rows s) as [|r rest IH]; simpl in *; [lia|].
    inversion Hb; subst. specialize (IH ltac:(assumption)). lia. }
  lia.
Qed.

Lemma insert_well_formed (now : string) (w : number) (d : string) (s : store) :
  well_formed s -> well_formed (snd (SQL.insert now w d s)).
Proof.
  intros Hwf. unfold SQL.insert.
  destruct (isNaN w) eqn:Hw; [exact Hwf|].
  destruct (existsb (SQL.has_date d) (rows s)) eqn:Hd; [exact Hwf|].
  rewrite (well_formed_next s Hwf).
  destruct Hwf as [Hdates Hids Hb Hws Hq]. simpl.
  constructor; simpl; rewrite ?map_app; simpl.
  - apply Permutation_NoDup with (l := d :: map date (rows s)).
    + apply Permutation_cons_append.
    + constructor; [|assumption]. rewrite <- existsb_has_date. congruence.
  - apply sorted_snoc; [assumption|].
    eapply Forall_impl; [|exact Hb]. simpl. intros i Hi. lia.
  - apply Forall_app. split.
    + eapply Forall_impl; [|exact Hb]. simpl. intros i Hi. lia.
    + constructor; [lia | constructor].
  - apply Forall_app. split; [assumption|]. constructor; [exact Hw | constructor].
  - lia.
Qed.

Lemma update_well_formed (cond : row -> bool) (w : number) (s : store) :
  well_formed s -> well_formed (snd (SQL.update_where cond w s)).
Proof.
  intros Hwf. unfold SQL.update_where.
  destruct (isNaN w) eqn:Hw; simpl.
  - destruct (existsb cond (rows s)) eqn:Hc; [exact Hwf|]. simpl.
    rewrite (existsb_false_map _ _ _ Hc). destruct s. exact Hwf.
  - destruct Hwf as [Hdates Hids Hb Hws Hq].
    constructor; simpl; rewrite ?set_weight_keeps by reflexivity; try assumption.
    rewrite Forall_forall in *. intros x Hx.
    apply in_map_iff in Hx. destruct Hx as [r' [E Hr']]. subst x.
    apply in_map_iff in Hr'. destruct Hr' as [r [E Hr]]. subst r'.
    destruct (cond r); simpl; [exact Hw|]. apply Hws. now apply in_map.
Qed.

Lemma delete_well_formed (cond : row -> bool) (s : store) :
  well_formed s -> well_formed (snd (SQL.delete_where cond s)).
Proof.
  intros [Hdates Hids Hb Hws Hq]. unfold SQL.delete_where.
  constructor; simpl.
  - now apply kept_keys_NoDup.
  - now apply kept_keys_sorted.
  - now apply kept_keys_Forall.
  - now apply kept_keys_Forall.
  - assumption.
Qed.

Lemma addWeight_well_formed (now : string) (w : number) (d : string) (s : store) :
  well_formed s -> well_formed (snd (addWeight now w d s)).
Proof.
  intros Hwf. unfold addWeight.
  pose proof (insert_well_formed now w d s Hwf) as Hi.
  destruct (SQL.insert now w d s) as [[i|e] s1]; simpl in *; [exact Hi|].
  destruct (is_unique_violation e); [|exact Hwf].
  pose proof (update_well_formed (SQL.has_date d) w s Hwf) as Hu.
  destruct (SQL.update_where (SQL.has_date d) w s) as [[n|e'] s2]; simpl in *;
    [exact Hu | exact Hwf].
Qed.

Lemma exec_well_formed (bind_text : value -> option string) (now : string)
  (A : Type) (c : call A) (s : store) :
  well_formed s -> well_formed (snd (exec bind_text now c s)).
Proof.
  intros Hwf. destruct c; simpl.
  - exact Hwf.
  - destruct (bind_text d); [now apply addWeight_well_formed | exact Hwf].
  - unfold updateWeight.
    pose proof (update_well_formed (SQL.has_id i) w s Hwf) as Hu.
    destruct (SQL.update_where (SQL.has_id i) w s) as [[n|e] s1]; simpl in *;
      [exact Hu | exact Hwf].
  - apply (delete_well_formed (SQL.has_id i) s Hwf).
  - apply (delete_well_formed (fun _ => true) s Hwf).
Qed.

Lemma run_well_formed (bind_text : value -> option string) (now : string)
  (h : handler) (s : store) :
  well_formed s -> well_formed (snd (run bind_text now h s)).
Proof.
  revert s. induction h as [r|A c k IH]; intros s Hwf; simpl.
  - exact Hwf.
  - pose proof (exec_well_formed bind_text now A c s Hwf) as He.
    destruct (exec bind_text now c s) as [o s1]. simpl in He. now apply IH.
Qed.

Lemma empty_store_well_formed : well_formed empty_store.
Proof. constructor; simpl; try constructor; lia. Qed.

(** X1. Whatever requests the API has served since the database was
    created, in any order and with any bodies, the table is well formed: no
    two rows share a date, ids grow strictly along the table and lie
    between 1 and the sequence counter, and no weight is NaN. *)
Theorem served_well_formed (bind_text : value -> option string)
  (l : list (string * request)) :
  well_formed (serve_all bind_text l empty_store).
Proof.
  unfold serve_all.
  generalize empty_store_well_formed. generalize empty_store.
  induction l as [|q rest IH]; intros s Hwf; simpl.
  - exact Hwf.
  - apply IH. now apply run_well_formed.
Qed.

(** ** Ids are never handed out twice *)

Lemma exec_seq_mono (bind_text : value -> option string) (now : string)
  (A : Type) (c : call A) (s : store) :
  seq s <= seq (snd (exec bind_text now c s)).
Proof.
  destruct c; simpl; try lia.
  - destruct (bind_text d) as [text|]; simpl; [|lia].
    unfold addWeight, SQL.insert.
    destruct (isNaN w) eqn:Hw; simpl; [lia|].
    destruct (existsb (SQL.has_date text) (rows s)) eqn:Hd; simpl.
    + unfold SQL.update_where. rewrite Hw. simpl. lia.
    + unfold SQL.next_rowid. lia.
  - unfold updateWeight, SQL.update_where.
    destruct (isNaN w && existsb (SQL.has_id i) (rows s)); simpl; lia.
Qed.

Lemma run_seq_mono (bind_text : value -> option string) (now : string)
  (h : handler) (s : store) :
  seq s <= seq (snd (run bind_text now h s)).
Proof.
  revert s. induction h as [r|A c k IH]; intros s; simpl; [lia|].
  pose proof (exec_seq_mono bind_text now A c s) as He.
  destruct (exec bind_text now c s) as [o s1]. simpl in He.
  specialize (IH o s1). lia.
Qed.

Lemma serve_all_seq_mono (bind_text : value -> option string)
  (l : list (string * request)) (s : store) :
  seq s <= seq (serve_all bind_text l s).
Proof.
  unfold serve_all. revert s. induction l as [|q rest IH]; intros s; simpl; [lia|].
  pose proof (run_seq_mono bind_text (fst q) (route (snd q)) s) as H.
  specialize (IH (snd (run bind_text (fst q) (route (snd q)) s))). lia.
Qed.

Lemma serve_all_well_formed (bind_text : value -> option string)
  (l : list (string * request)) (s : store) :
  well_formed s -> well_formed (serve_all bind_text l s).
Proof.
  unfold serve_all. revert s. induction l as [|q rest IH]; intros s Hwf; simpl.
  - exact Hwf.
  - apply IH. now apply run_well_formed.
Qed.

(** X2. An id is never reused.  Take a row [r] of a well-formed table and
    serve any requests, deletions of [r] or of everything among them; a call
    of [addWeight] that then inserts a row returns an id greater than the
    id [r] had. *)
Theorem ids_never_reused (bind_text : value -> option string) (s : store)
  (r : row) (l : list (string * request)) (now : string) (w : number)
  (d : string) :
  well_formed s ->
  In r (rows s) ->
  isNaN w = false ->
  ~ In d (map date (rows (serve_all bind_text l s))) ->
  exists i,
    fst (addWeight now w d (serve_all bind_text l s))
    = Returned (mkAdd true (Some i) None) /\
    id r < i.
Proof.
  intros Hwf Hr Hw Hd.
  pose proof (serve_all_well_formed bind_text l s Hwf) as Hwf'.
  pose proof (serve_all_seq_mono bind_text l s) as Hmono.
  set (s' := serve_all bind_text l s) in *.
  assert (Hf : existsb (SQL.has_date d) (rows s') = false).
  { destruct (existsb (SQL.has_date d) (rows s')) eqn:E; [|reflexivity].
    apply existsb_has_date in E. contradiction. }
  rewrite (addWeight_fresh now w d s' Hw Hf). simpl.
  exists (SQL.next_rowid s'). split; [reflexivity|].
  rewrite (well_formed_next s' Hwf').
  destruct Hwf as [_ _ Hb _ _]. rewrite Forall_forall in Hb.
  specialize (Hb (id r) (in_map id _ _ Hr)). lia.
Qed.

(** X2, at a table with the ids 1 and 2 that is cleared before the next
    write. *)
Lemma ids_never_reused_witness :
  exists i,
    fst (addWeight "2024-01-03 08:00:00" (S754_finite false 75 0) "2024-01-03"
           (serve_all strings_only
              [("2024-01-02 09:00:00",
                ReqDELETE (Some (VObject [("deleteAll", VBool true)])))]
              (mkStore [mkRow 1 (S754_finite false 76 0) "2024-01-01" "t1";
                        mkRow 2 (S754_finite false 74 0) "2023-12-31" "t2"] 2)))
    = Returned (mkAdd true (Some i) None) /\
    2 < i.
Proof.
  apply (ids_never_reused strings_only
           (mkStore [mkRow 1 (S754_finite false 76 0) "2024-01-01" "t1";
                     mkRow 2 (S754_finite false 74 0) "2023-12-31" "t2"] 2)
           (mkRow 2 (S754_finite false 74 0) "2023-12-31" "t2")).
  - constructor; simpl.
    + repeat constructor; simpl; intuition discriminate.
    + repeat constructor.
    + repeat constructor; lia.
    + repeat constructor.
    + lia.
  - simpl. tauto.
  - reflexivity.
  - simpl. tauto.
Defined.

(** ** One id, one row *)

Lemma id_is_inj (x : number) (z1 z2 : Z) :
  SQL.id_is x z1 = true -> SQL.id_is x z2 = true -> z1 = z2.
Proof.
  unfold SQL.id_is. destruct x as [b|b| |b m e]; try discriminate.
  - rewrite !Z.eqb_eq. congruence.
  - destruct (0 <=? e).
    + rewrite !Z.eqb_eq. congruence.
    + rewrite !andb_true_iff, !Z.eqb_eq. intros [_ H1] [_ H2]. congruence.
Qed.

Lemma sorted_lt_NoDup (l : list Z) : StronglySorted Z.lt l -> NoDup l.
Proof.
  induction 1 as [|a rest Hs IH Hall]; constructor; [|assumption].
  intros Hin. rewrite Forall_forall in Hall. specialize (Hall a Hin). lia.
Qed.

Lemma existsb_false_keep (cond : row -> bool) (l : list row) :
  existsb cond l = false -> filter (fun r => negb (cond r)) l = l.
Proof.
  induction l as [|r rest IH]; simpl; [reflexivity|].
  destruct (cond r); simpl; [discriminate|]. intros H. now rewrite IH.
Qed.

(** In a table whose ids are distinct, the row that [id = ?] selects is the
    only one. *)
Lemma only_match (x : number) (l1 l2 : list row) (r : row) :
  NoDup (map id (l1 ++ r :: l2)) ->
  SQL.has_id x r = true ->
  existsb (SQL.has_id x) l1 = false /\ existsb (SQL.has_id x) l2 = false.
Proof.
  intros Hnd Hr. rewrite map_app in Hnd. simpl in Hnd.
  pose proof (NoDup_remove_2 _ _ _ Hnd) as Hnotin.
  assert (H : forall l, (forall r', In r' l -> id r' <> id r) ->
                        existsb (SQL.has_id x) l = false).
  { intros l Hl. destruct (existsb (SQL.has_id x) l) eqn:E; [|reflexivity].
    apply existsb_exists in E. destruct E as [r' [Hin Hm]].
    exfalso. apply (Hl r' Hin). exact (id_is_inj x _ _ Hm Hr). }
  split; apply H; intros r' Hin E; apply Hnotin; rewrite <- E;
    apply in_or_app; [left | right]; now apply in_map.
Qed.

Lemma has_id_not (x : number) (r : row) :
  SQL.has_id x r = true -> negb (SQL.has_id x r) = false.
Proof. intros H. now rewrite H. Qed.

(** The statements with [WHERE id = ?] on a well-formed table. *)
Lemma where_id_none (x : number) (s : store) :
  existsb (SQL.has_id x) (rows s) = false ->
  SQL.delete_where (SQL.has_id x) s = (0, s) /\
  forall w, SQL.update_where (SQL.has_id x) w s = (Returned 0, s).
Proof.
  intros Hno. unfold SQL.delete_where, SQL.update_where.
  rewrite Hno, (existsb_false_filter _ _ Hno), (existsb_false_keep _ _ Hno).
  split; [destruct s; reflexivity|].
  intros w. rewrite andb_false_r, (existsb_false_map _ _ _ Hno).
  destruct s; reflexivity.
Qed.

Lemma where_id_one (x : number) (s : store) (r : row) :
  well_formed s -> In r (rows s) -> SQL.has_id x r = true ->
  exists l1 l2,
    rows s = (l1 ++ r :: l2)%list /\
    SQL.delete_where (SQL.has_id x) s = (1, mkStore (l1 ++ l2) (seq s)) /\
    forall w, isNaN w = false ->
      SQL.update_where (SQL.has_id x) w s
      = (Returned 1,
         mkStore (l1 ++ mkRow (id r) w (date r) (created_at r) :: l2) (seq s)).
Proof.
  intros Hwf Hin Hr.
  destruct (in_split r (rows s) Hin) as [l1 [l2 E]].
  exists l1, l2. split; [exact E|].
  pose proof (sorted_lt_NoDup _ (wf_ids s Hwf)) as Hnd. rewrite E in Hnd.
  destruct (only_match x l1 l2 r Hnd Hr) as [H1 H2].
  split.
  - unfold SQL.delete_where. rewrite E, !filter_app. simpl. rewrite Hr. simpl.
    rewrite (existsb_false_filter _ _ H1), (existsb_false_filter _ _ H2).
    rewrite (existsb_false_keep _ _ H1), (existsb_false_keep _ _ H2).
    reflexivity.
  - intros w Hw. rewrite update_number by assumption.
    rewrite E, filter_app, map_app. simpl. rewrite Hr. simpl.
    rewrite (existsb_false_filter _ _ H1), (existsb_false_filter _ _ H2).
    rewrite (existsb_false_map _ _ _ H1), (existsb_false_map _ _ _ H2).
    reflexivity.
Qed.

(** X3. On a well-formed table [deleteWeight(id)] changes 0 or 1 rows: with
    no row of that id it returns [changes = 0] and the database is as it
    was; with a row [r] of that id it returns [changes = 1] and the table is
    the one before without [r], the other rows in place and untouched, the
    sequence counter kept. *)
Theorem deleteWeight_by_id (x : number) (s : store) :
  well_formed s ->
  (existsb (SQL.has_id x) (rows s) = false ->
     deleteWeight x s = (mkRun true 0, s)) /\
  (forall r, In r (rows s) -> SQL.has_id x r = true ->
     exists l1 l2,
       rows s = (l1 ++ r :: l2)%list /\
       deleteWeight x s = (mkRun true 1, mkStore (l1 ++ l2) (seq s))).
Proof.
  intros Hwf. unfold deleteWeight. split.
  - intros Hno. destruct (where_id_none x s Hno) as [Hd _]. now rewrite Hd.
  - intros r Hin Hr.
    destruct (where_id_one x s r Hwf Hin Hr) as [l1 [l2 [E [Hd _]]]].
    exists l1, l2. split; [exact E | now rewrite Hd].
Qed.

(** X3, at [deleteWeight(1)] on the table with the ids 1 and 2. *)
Lemma deleteWeight_by_id_witness :
  exists l1 l2,
    [mkRow 1 (S754_finite false 76 0) "2024-01-01" "t1";
     mkRow 2 (S754_finite false 74 0) "2023-12-31" "t2"]
    = (l1 ++ mkRow 1 (S754_finite false 76 0) "2024-01-01" "t1" :: l2)%list /\
    deleteWeight (S754_finite false 1 0)
      (mkStore [mkRow 1 (S754_finite false 76 0) "2024-01-01" "t1";
                mkRow 2 (S754_finite false 74 0) "2023-12-31" "t2"] 2)
    = (mkRun true 1, mkStore (l1 ++ l2) 2).
Proof.
  refine (proj2 (deleteWeight_by_id (S754_finite false 1 0)
            (mkStore [mkRow 1 (S754_finite false 76 0) "2024-01-01" "t1";
                      mkRow 2 (S754_finite false 74 0) "2023-12-31" "t2"] 2) _)
            (mkRow 1 (S754_finite false 76 0) "2024-01-01" "t1") _ _).
  - constructor; simpl.
    + repeat constructor; simpl; intuition discriminate.
    + repeat constructor.
    + repeat constructor; lia.
    + repeat constructor.
    + lia.
  - simpl. tauto.
  - reflexivity.
Defined.

(** X4. On a well-formed table [updateWeight(id, w)], [w] a number other
    than NaN, with a row [r] of that id returns [changes = 1] and the table
    is the one before with [r] carrying the weight [w]: its id, date and
    [created_at] and all the other rows are as they were. *)
Theorem updateWeight_by_id (x w : number) (s : store) (r : row) :
  well_formed s ->
  isNaN w = false ->
  In r (rows s) ->
  SQL.has_id x r = true ->
  exists l1 l2,
    rows s = (l1 ++ r :: l2)%list /\
    updateWeight x w s
    = (Returned (mkRun true 1),
       mkStore (l1 ++ mkRow (id r) w (date r) (created_at r) :: l2) (seq s)).
Proof.
  intros Hwf Hw Hin Hr.
  destruct (where_id_one x s r Hwf Hin Hr) as [l1 [l2 [E [_ Hu]]]].
  exists l1, l2. split; [exact E|].
  unfold updateWeight. now rewrite (Hu w Hw).
Qed.

(** X4, at [updateWeight(2, 80.0)] on the table with the ids 1 and 2. *)
Lemma updateWeight_by_id_witness :
  exists l1 l2,
    [mkRow 1 (S754_finite false 76 0) "2024-01-01" "t1";
     mkRow 2 (S754_finite false 74 0) "2023-12-31" "t2"]
    = (l1 ++ mkRow 2 (S754_finite false 74 0) "2023-12-31" "t2" :: l2)%list /\
    updateWeight (S754_finite false 2 0) (S754_finite false 80 0)
      (mkStore [mkRow 1 (S754_finite false 76 0) "2024-01-01" "t1";
                mkRow 2 (S754_finite false 74 0) "2023-12-31" "t2"] 2)
    = (Returned (mkRun true 1),
       mkStore (l1 ++ mkRow 2 (S754_finite false 80 0) "2023-12-31" "t2" :: l2) 2).
Proof.
  apply (updateWeight_by_id (S754_finite false 2 0) (S754_finite false 80 0)
           (mkStore [mkRow 1 (S754_finite false 76 0) "2024-01-01" "t1";
                     mkRow 2 (S754_finite false 74 0) "2023-12-31" "t2"] 2)
           (mkRow 2 (S754_finite false 74 0) "2023-12-31" "t2")).
  - constructor; simpl.
    + repeat constructor; simpl; intuition discriminate.
    + repeat constructor.
    + repeat constructor; lia.
    + repeat constructor.
    + lia.
  - reflexivity.
  - simpl. tauto.
  - reflexivity.
Defined.

(** ** The handlers on the database *)

Lemma addWeight_threw (now : string) (w : number) (d : string) (s : store)
  (e : sqlite_error) :
  fst (addWeight now w d s) = Threw e -> snd (addWeight now w d s) = s.
Proof.
  unfold addWeight.
  destruct (SQL.insert now w d s) as [[i|e0] s1]; simpl; [discriminate|].
  destruct (is_unique_violation e0); [|reflexivity].
  destruct (SQL.update_where (SQL.has_date d) w s) as [[n|e1] s2]; simpl;
    [discriminate | reflexivity].
Qed.

Lemma no_change_existsb (cond : row -> bool) (l : list row) :
  Z.of_nat (List.length (filter cond l)) = 0 -> existsb cond l = false.
Proof.
  induction l as [|r rest IH]; simpl; [reflexivity|].
  destruct (cond r); simpl; [lia | exact IH].
Qed.

Lemma update_no_change (cond : row -> bool) (w : number) (s s' : store) (n : Z) :
  SQL.update_where cond w s = (Returned n, s') -> n = 0 -> s' = s.
Proof.
  unfold SQL.update_where.
  destruct (isNaN w && existsb cond (rows s)); [discriminate|].
  intros H Hn. subst n. injection H as Hlen Hs. subst s'.
  rewrite (existsb_false_map _ _ _ (no_change_existsb _ _ Hlen)).
  destruct s; reflexivity.
Qed.

Lemma delete_no_change (cond : row -> bool) (s : store) :
  fst (SQL.delete_where cond s) = 0 -> snd (SQL.delete_where cond s) = s.
Proof.
  unfold SQL.delete_where. simpl. intros Hn.
  rewrite (existsb_false_keep _ _ (no_change_existsb _ _ Hn)).
  destruct s; reflexivity.
Qed.

(** X5. A request that is not answered with 200 has changed nothing: for
    every handler, every body and every state of the database, when the
    status of the response is 400, 404 or 500 the database is exactly as
    it was before the request. *)
Theorem failed_request_changes_nothing (bind_text : value -> option string)
  (now : string) (q : request) (s : store) :
  status (fst (run bind_text now (route q) s)) <> 200 ->
  snd (run bind_text now (route q) s) = s.
Proof.
  destruct q as [|parsed|parsed|parsed]; simpl.
  - reflexivity.
  - unfold POST. destruct parsed as [parsed|]; [|reflexivity].
    destruct (get parsed "weight") as [weight|]; [|reflexivity].
    destruct (get parsed "date") as [date|]; [|reflexivity].
    destruct (valid_number weight) as [w|]; [|reflexivity].
    destruct (truthy date); simpl; [|reflexivity].
    destruct (bind_text date) as [text|]; [|reflexivity].
    pose proof (addWeight_threw now w text s) as Ht.
    destruct (addWeight now w text s) as [[result|e] s1]; simpl in *.
    + intros H. now contradiction H.
    + intros _. exact (Ht e eq_refl).
  - unfold PUT. destruct parsed as [parsed|]; [|reflexivity].
    destruct (get parsed "id") as [i|]; [|reflexivity].
    destruct (get parsed "weight") as [weight|]; [|reflexivity].
    destruct (valid_number i) as [x|]; [|reflexivity].
    destruct (valid_number weight) as [w|]; simpl; [|reflexivity].
    unfold updateWeight.
    pose proof (update_no_change (SQL.has_id x) w s) as Hu.
    destruct (SQL.update_where (SQL.has_id x) w s) as [[n|e] s1]; simpl;
      [|reflexivity].
    destruct (n =? 0) eqn:En; simpl.
    + intros _. apply Z.eqb_eq in En. exact (Hu s1 n eq_refl En).
    + intros H. now contradiction H.
  - unfold DELETE. destruct parsed as [parsed|]; [|reflexivity].
    destruct (get parsed "id") as [i|]; [|reflexivity].
    destruct (get parsed "deleteAll") as [flag|]; [|reflexivity].
    destruct (strict_true flag); simpl.
    + intros H. now contradiction H.
    + destruct (valid_number i) as [x|]; simpl; [|reflexivity].
      pose proof (delete_no_change (SQL.has_id x) s) as Hd.
      unfold SQL.delete_where in *. simpl in *.
      destruct (Z.of_nat (List.length (filter (SQL.has_id x) (rows s))) =? 0)
        eqn:En; simpl.
      * intros _. apply Z.eqb_eq in En. exact (Hd En).
      * intros H. now contradiction H.
Qed.

(** X5, at a PUT for the id 999 that no row has: 404. *)
Lemma failed_request_changes_nothing_witness :
  let s := mkStore [mkRow 1 (S754_finite false 76 0) "2024-01-01" "t1"] 1 in
  snd (run strings_only "t2"
         (route (ReqPUT (Some (VObject [("id", VNumber (S754_finite false 999 0));
                                        ("weight", VNumber (S754_finite false 80 0))]))))
         s) = s.
Proof.
  intros s. apply failed_request_changes_nothing. vm_compute. discriminate.
Defined.

(** X6. PUT on a well-formed table, the body read.  It checks [id] first
    and [weight] second, answering 400 and touching nothing when one is not
    a number or is NaN; with both valid it answers 404 and touches nothing
    when no row has the id, and otherwise answers 200 after giving the one
    row of that id the new weight, nothing else in the table changing. *)
Theorem PUT_contract (bind_text : value -> option string) (now : string)
  (parsed i wv : value) (s : store) :
  well_formed s ->
  get parsed "id" = Some i ->
  get parsed "weight" = Some wv ->
  match valid_number i, valid_number wv with
  | None, _ =>
      run bind_text now (PUT (Some parsed)) s
      = (json_status (Error "ID must be a valid number") 400, s)
  | Some _, None =>
      run bind_text now (PUT (Some parsed)) s
      = (json_status (Error "Weight must be a valid number") 400, s)
  | Some x, Some w =>
      (existsb (SQL.has_id x) (rows s) = false ->
         run bind_text now (PUT (Some parsed)) s
         = (json_status (Error "Entry not found") 404, s)) /\
      (forall r, In r (rows s) -> SQL.has_id x r = true ->
         exists l1 l2,
           rows s = (l1 ++ r :: l2)%list /\
           run bind_text now (PUT (Some parsed)) s
           = (json Success,
              mkStore (l1 ++ mkRow (id r) w (date r) (created_at r) :: l2)
                      (seq s)))
  end.
Proof.
  intros Hwf Hi Hw. unfold PUT. rewrite Hi, Hw.
  destruct (valid_number i) as [x|]; [|reflexivity].
  destruct (valid_number wv) as [w|] eqn:Ew; [|reflexivity].
  apply valid_number_Some in Ew. destruct Ew as [_ Hnum].
  simpl. unfold updateWeight. split.
  - intros Hno. destruct (where_id_none x s Hno) as [_ Hu]. now rewrite Hu.
  - intros r Hin Hr.
    destruct (where_id_one x s r Hwf Hin Hr) as [l1 [l2 [E [_ Hu]]]].
    exists l1, l2. split; [exact E|]. now rewrite (Hu w Hnum).
Qed.

(** X6, at PUT [{ id: 1, weight: 80 }] on a table that has the id 1. *)
Lemma PUT_contract_witness :
  exists l1 l2,
    [mkRow 1 (S754_finite false 76 0) "2024-01-01" "t1"]
    = (l1 ++ mkRow 1 (S754_finite false 76 0) "2024-01-01" "t1" :: l2)%list /\
    run strings_only "t2"
      (PUT (Some (VObject [("id", VNumber (S754_finite false 1 0));
                           ("weight", VNumber (S754_finite false 80 0))])))
      (mkStore [mkRow 1 (S754_finite false 76 0) "2024-01-01" "t1"] 1)
    = (json Success,
       mkStore (l1 ++ mkRow 1 (S754_finite false 80 0) "2024-01-01" "t1" :: l2) 1).
Proof.
  refine (proj2 (PUT_contract strings_only "t2"
            (VObject [("id", VNumber (S754_finite false 1 0));
                      ("weight", VNumber (S754_finite false 80 0))])
            (VNumber (S754_finite false 1 0)) (VNumber (S754_finite false 80 0))
            (mkStore [mkRow 1 (S754_finite false 76 0) "2024-01-01" "t1"] 1)
            _ eq_refl eq_refl)
            (mkRow 1 (S754_finite false 76 0) "2024-01-01" "t1") _ _).
  - constructor; simpl.
    + repeat constructor; simpl; intuition discriminate.
    + repeat constructor.
    + repeat constructor; lia.
    + repeat constructor.
    + lia.
  - simpl. tauto.
  - reflexivity.
Defined.

Lemma filter_true (l : list row) : filter (fun _ => true) l = l.
Proof. induction l as [|r rest IH]; simpl; [reflexivity | now rewrite IH]. Qed.

Lemma filter_false (l : list row) : filter (fun _ => negb true) l = [].
Proof. induction l as [|r rest IH]; simpl; [reflexivity | exact IH]. Qed.

(** X7. DELETE with [deleteAll: true] clears the table whatever [id] the
    body carries, a valid id of one row included: it answers 200 with
    [deleted] the number of rows there were, 0 on an empty table, and
    leaves no row; the sequence counter is kept. *)
Theorem DELETE_all_ignores_id (bind_text : value -> option string)
  (now : string) (parsed i : value) (s : store) :
  get parsed "id" = Some i ->
  get parsed "deleteAll" = Some (VBool true) ->
  run bind_text now (DELETE (Some parsed)) s
  = (json (Deleted (Z.of_nat (List.length (rows s)))), mkStore [] (seq s)).
Proof.
  intros Hi Hf. unfold DELETE. rewrite Hi, Hf. simpl.
  unfold SQL.delete_where. simpl. now rewrite filter_true, filter_false.
Qed.

(** X7, at [{ id: 2, deleteAll: true }] on a table of two rows. *)
Lemma DELETE_all_ignores_id_witness :
  run strings_only "t3"
    (DELETE (Some (VObject [("id", VNumber (S754_finite false 2 0));
                            ("deleteAll", VBool true)])))
    (mkStore [mkRow 1 (S754_finite false 76 0) "2024-01-01" "t1";
              mkRow 2 (S754_finite false 74 0) "2023-12-31" "t2"] 2)
  = (json (Deleted 2), mkStore [] 2).
Proof.
  apply (DELETE_all_ignores_id strings_only "t3"
           (VObject [("id", VNumber (S754_finite false 2 0));
                     ("deleteAll", VBool true)])
           (VNumber (S754_finite false 2 0))); reflexivity.
Defined.

(** X8. DELETE of one entry on a well-formed table, [deleteAll] not [true]
    and [id] a number other than NaN: with no row of that id it answers 404
    and touches nothing; with a row of that id it answers 200 and the table
    is the one before without that row. *)
Theorem DELETE_one_contract (bind_text : value -> option string) (now : string)
  (parsed i flag : value) (x : number) (s : store) :
  well_formed s ->
  get parsed "id" = Some i ->
  get parsed "deleteAll" = Some flag ->
  flag <> VBool true ->
  valid_number i = Some x ->
  (existsb (SQL.has_id x) (rows s) = false ->
     run bind_text now (DELETE (Some parsed)) s
     = (json_status (Error "Entry not found") 404, s)) /\
  (forall r, In r (rows s) -> SQL.has_id x r = true ->
     exists l1 l2,
       rows s = (l1 ++ r :: l2)%list /\
       run bind_text now (DELETE (Some parsed)) s
       = (json Success, mkStore (l1 ++ l2) (seq s))).
Proof.
  intros Hwf Hi Hf Hne Hx. unfold DELETE. rewrite Hi, Hf, Hx.
  assert (Hs : strict_true flag = false).
  { destruct (strict_true flag) eqn:E; [|reflexivity].
    apply strict_true_iff in E. contradiction. }
  rewrite Hs. cbn [run exec]. unfold deleteWeight. split.
  - intros Hno. destruct (where_id_none x s Hno) as [Hd _]. now rewrite Hd.
  - intros r Hin Hr.
    destruct (where_id_one x s r Hwf Hin Hr) as [l1 [l2 [E [Hd _]]]].
    exists l1, l2. split; [exact E | now rewrite Hd].
Qed.

(** X8, at DELETE [{ id: 999 }] on a table that has the id 1 only. *)
Lemma DELETE_one_contract_witness :
  let s := mkStore [mkRow 1 (S754_finite false 76 0) "2024-01-01" "t1"] 1 in
  run strings_only "t2"
    (DELETE (Some (VObject [("id", VNumber (S754_finite false 999 0))]))) s
  = (json_status (Error "Entry not found") 404, s).
Proof.
  intros s.
  refine (proj1 (DELETE_one_contract strings_only "t2"
            (VObject [("id", VNumber (S754_finite false 999 0))])
            (VNumber (S754_finite false 999 0)) VUndefined
            (S754_finite false 999 0) s _ eq_refl eq_refl _ eq_refl) _).
  - constructor; simpl.
    + repeat constructor; simpl; intuition discriminate.
    + repeat constructor.
    + repeat constructor; lia.
    + repeat constructor.
    + lia.
  - discriminate.
  - reflexivity.
Defined.

(** X9. GET after any history.  Whatever requests were served since the
    database was created, GET answers 200 with one entry per row of the
    table, strictly ascending by date, and leaves the database as it is. *)
Theorem GET_after_any_history (bind_text : value -> option string)
  (l : list (string * request)) (now : string) :
  let s := serve_all bind_text l empty_store in
  run bind_text now GET s = (mkResponse 200 (Weights (getAllWeights s)), s) /\
  Permutation (map entry_of (rows s)) (getAllWeights s) /\
  StronglySorted (fun a b => (entry_date a <? entry_date b)%string = true)
                 (getAllWeights s).
Proof.
  intros s.
  pose proof (serve_all_well_formed bind_text l empty_store
                empty_store_well_formed) as Hwf.
  fold s in Hwf. split; [reflexivity|].
  unfold getAllWeights.
  pose proof (order_by_perm SQL.date_asc (rows s)) as Hp. split.
  - apply Permutation_map, Permutation_sym, Hp.
  - apply (strongly_sorted_map entry_of
             (fun a b => (entry_date a <? entry_date b)%string = true)).
    simpl. apply sorted_distinct_strict.
    + apply order_by_sorted; [apply date_asc_total | apply date_asc_trans].
    + apply Permutation_NoDup with (l := map date (rows s)).
      * apply Permutation_map, Permutation_sym, Hp.
      * exact (wf_dates s Hwf).
Qed.

(** ** The table as a map from dates to weights *)

Lemma find_existsb_false (p : row -> bool) (l : list row) :
  existsb p l = false -> find p l = None.
Proof.
  induction l as [|r rest IH]; simpl; [reflexivity|].
  destruct (p r); simpl; [discriminate | exact IH].
Qed.

Lemma find_existsb_true (p : row -> bool) (l : list row) :
  existsb p l = true -> exists r, find p l = Some r.
Proof.
  induction l as [|r rest IH]; simpl; [discriminate|].
  destruct (p r); simpl; [intros _; now exists r | exact IH].
Qed.

Lemma find_snoc (p : row -> bool) (l : list row) (x : row) :
  find p (l ++ [x]) =
    match find p l with
    | Some r => Some r
    | None => if p x then Some x else None
    end.
Proof.
  induction l as [|r rest IH]; simpl; [reflexivity|].
  destruct (p r); [reflexivity | exact IH].
Qed.

Lemma find_map_keep (p : row -> bool) (f : row -> row) (l : list row) :
  (forall r, p (f r) = p r) -> find p (map f l) = option_map f (find p l).
Proof.
  intros Hp. induction l as [|r rest IH]; simpl; [reflexivity|].
  rewrite Hp. destruct (p r); [reflexivity | exact IH].
Qed.

(** The row of date [d] after one call [addWeight(w, d')]. *)
Lemma row_on_addWeight (now : string) (w : number) (d' d : string) (s : store) :
  row_on d (snd (addWeight now w d' s)) =
    if negb (isNaN w) && (d' =? d)%string then
      Some match row_on d s with
           | Some r => SQL.set_weight w r
           | None => mkRow (SQL.next_rowid s) w d now
           end
    else row_on d s.
Proof.
  unfold row_on.
  destruct (addWeight_cases now w d' s) as [[E Hw]|[[Hw [Hd E]]|[Hw [Hd E]]]];
    rewrite E, Hw; simpl; [reflexivity| |].
  - rewrite find_snoc. unfold SQL.has_date at 2. simpl.
    destruct (d' =? d)%string eqn:Ed.
    + apply String.eqb_eq in Ed. subst d'.
      now rewrite (find_existsb_false _ _ Hd).
    + now destruct (find (SQL.has_date d) (rows s)).
  - rewrite find_map_keep by (intros r; now destruct (SQL.has_date d' r)).
    destruct (d' =? d)%string eqn:Ed.
    + apply String.eqb_eq in Ed. subst d'.
      destruct (find_existsb_true _ _ Hd) as [r Hr]. rewrite Hr. simpl.
      destruct (find_some _ _ Hr) as [_ Hm]. now rewrite Hm.
    + destruct (find (SQL.has_date d) (rows s)) as [r|] eqn:Hr; [|reflexivity].
      simpl. destruct (find_some _ _ Hr) as [_ Hm].
      unfold SQL.has_date in *. apply String.eqb_eq in Hm. rewrite Hm.
      rewrite String.eqb_sym, Ed. reflexivity.
Qed.

Lemma last_write_from (d : string) (l : list upsert) (acc : option number) :
  fold_left (fun acc c => if writes d c then Some (new_weight c) else acc) l acc
  = match last_write d l with
    | Some w => Some w
    | None => acc
    end.
Proof.
  unfold last_write. revert acc.
  induction l as [|c rest IH]; intros acc; simpl; [reflexivity|].
  rewrite (IH (if writes d c then Some (new_weight c) else acc)).
  rewrite (IH (if writes d c then Some (new_weight c) else None)).
  destruct (fold_left _ rest None); [reflexivity|].
  now destruct (writes d c).
Qed.

(** X10. The last write wins.  After any sequence of [addWeight] calls on
    any table, the weight the table holds for a date [d] is the weight of
    the last call for [d] whose weight is not NaN; when the sequence has no
    such call it is the weight the table held before, and no row if it held
    none. *)
Theorem last_write_wins (d : string) (l : list upsert) (s : store) :
  option_map weight (row_on d (upserts l s))
  = match last_write d l with
    | Some w => Some w
    | None => option_map weight (row_on d s)
    end.
Proof.
  unfold upserts. revert s. induction l as [|c rest IH]; intros s; simpl.
  - reflexivity.
  - rewrite IH. unfold last_write at 2. simpl. rewrite last_write_from.
    destruct (last_write d rest); [reflexivity|].
    rewrite row_on_addWeight. unfold writes.
    destruct (negb (isNaN (new_weight c)) && (on_date c =? d)%string);
      [|reflexivity].
    simpl. now destruct (row_on d s).
Qed.

(** X11. [created_at] is the time of the first write.  After any sequence
    of [addWeight] calls, the row of a date [d] that was in the table
    before has the [created_at] it had; the row of a date that was not has
    the clock reading of the first call for [d] whose weight is not NaN, and
    later calls for [d] do not change it. *)
Theorem created_at_is_first_write (d : string) (l : list upsert) (s : store) :
  option_map created_at (row_on d (upserts l s))
  = match row_on d s with
    | Some r => Some (created_at r)
    | None => first_write d l
    end.
Proof.
  unfold upserts, first_write. revert s.
  induction l as [|c rest IH]; intros s; simpl.
  - now destruct (row_on d s).
  - rewrite IH, row_on_addWeight. unfold writes.
    destruct (negb (isNaN (new_weight c)) && (on_date c =? d)%string);
      [|reflexivity].
    now destruct (row_on d s).
Qed.

(** X12. A write repeated is an update that changes nothing: after
    [addWeight(w, d)], [w] not NaN, a second [addWeight(w, d)] returns
    [{ success: true, updated: true }] and leaves the database exactly as
    the first call left it, whether the first call inserted or updated. *)
Theorem addWeight_idempotent (now now' : string) (w : number) (d : string)
  (s : store) :
  isNaN w = false ->
  addWeight now' w d (snd (addWeight now w d s))
  = (Returned (mkAdd true None (Some true)), snd (addWeight now w d s)).
Proof.
  intros Hw.
  destruct (existsb (SQL.has_date d) (rows s)) eqn:Hd.
  - rewrite (addWeight_taken now w d s Hw Hd). simpl.
    rewrite addWeight_taken; [| assumption |].
    + simpl. f_equal. f_equal. rewrite map_map. apply map_ext.
      intros r. destruct (SQL.has_date d r) eqn:Hr; simpl.
      * unfold SQL.has_date in *. simpl. now rewrite Hr.
      * now rewrite Hr.
    + simpl. apply existsb_has_date. rewrite update_keeps_dates.
      now apply existsb_has_date.
  - rewrite (addWeight_fresh now w d s Hw Hd). simpl.
    assert (Hlast : SQL.has_date d (mkRow (SQL.next_rowid s) w d now) = true).
    { unfold SQL.has_date. simpl. apply String.eqb_refl. }
    rewrite addWeight_taken; [| assumption |].
    + simpl. f_equal. f_equal. rewrite map_app. simpl.
      rewrite (existsb_false_map _ _ _ Hd), Hlast. reflexivity.
    + simpl. rewrite existsb_app. simpl. rewrite Hlast. apply orb_true_r.
Qed.

(** X12, at 75.5 kg written twice for 2024-01-01 on the empty table. *)
Lemma addWeight_idempotent_witness :
  addWeight "t2" (S754_finite false 151 (-1)) "2024-01-01"
    (snd (addWeight "t1" (S754_finite false 151 (-1)) "2024-01-01" empty_store))
  = (Returned (mkAdd true None (Some true)),
     snd (addWeight "t1" (S754_finite false 151 (-1)) "2024-01-01" empty_store)).
Proof.
  apply (addWeight_idempotent "t1" "t2" (S754_finite false 151 (-1))
           "2024-01-01" empty_store eq_refl).
Defined.

Lemma addWeight_dates (now : string) (w : number) (d' d : string) (s : store) :
  In d (map date (rows (snd (addWeight now w d' s)))) <->
  In d (map date (rows s)) \/ negb (isNaN w) && (d' =? d)%string = true.
Proof.
  destruct (addWeight_cases now w d' s) as [[E Hw]|[[Hw [Hd E]]|[Hw [Hd E]]]];
    rewrite E, Hw; simpl.
  - split; [now left | intros [H|H]; [exact H | discriminate]].
  - rewrite map_app, in_app_iff. simpl. rewrite String.eqb_eq. tauto.
  - rewrite update_keeps_dates. rewrite String.eqb_eq. split; [now left|].
    intros [H|H]; [exact H|]. subst d'. now apply existsb_has_date.
Qed.

Lemma upserts_dates (d : string) (l : list upsert) (s : store) :
  In d (map date (rows (upserts l s))) <->
  In d (map date (rows s)) \/ existsb (writes d) l = true.
Proof.
  unfold upserts. revert s. induction l as [|c rest IH]; intros s; simpl.
  - split; [now left | intros [H|H]; [exact H | discriminate]].
  - rewrite IH, addWeight_dates. unfold writes. rewrite orb_true_iff. tauto.
Qed.

(** X13. One row per date written.  After any sequence of [addWeight]
    calls on the empty table, the table has as many rows as there are
    distinct dates among the calls whose weight is not NaN. *)
Theorem upserts_row_count (l : list upsert) :
  List.length (rows (upserts l empty_store))
  = List.length
      (nodup string_dec
         (map on_date (filter (fun c => negb (isNaN (new_weight c))) l))).
Proof.
  rewrite <- (length_map date).
  apply Permutation_length, NoDup_Permutation.
  - apply (upserts_unique_dates l empty_store). constructor.
  - apply NoDup_nodup.
  - intros d. rewrite nodup_In, upserts_dates. simpl.
    rewrite existsb_exists, in_map_iff. unfold writes.
    split.
    + intros [[]|[c [Hc Hm]]]. apply andb_true_iff in Hm. destruct Hm as [Hv Hd].
      exists c. split; [now apply String.eqb_eq|].
      apply filter_In. now split.
    + intros [c [Hd Hc]]. apply filter_In in Hc. destruct Hc as [Hc Hv].
      right. exists c. split; [exact Hc|].
      rewrite Hv. simpl. now apply String.eqb_eq.
Qed.

(** ** Reading the table after a change *)

Section OrderByFilter.

Variable le : row -> row -> bool.
Hypothesis le_total : forall a b, le a b = true \/ le b a = true.
Hypothesis le_trans : forall a b c, le a b = true -> le b c = true -> le a c = true.
Variable p : row -> bool.

Lemma place_first (r : row) (l : list row) :
  Forall (fun c => le r c = true) l -> SQL.place le r l = r :: l.
Proof.
  destruct l as [|c rest]; simpl; [reflexivity|].
  intros H. inversion H as [|? ? Hc _]; subst. now rewrite Hc.
Qed.

Lemma place_filter (r : row) (l : list row) :
  StronglySorted (fun a b => le a b = true) l ->
  filter p (SQL.place le r l)
  = if p r then SQL.place le r (filter p l) else filter p l.
Proof.
  induction 1 as [|c rest Hs IH Hall]; simpl.
  - now destruct (p r).
  - destruct (le r c) eqn:Hrc.
    + assert (Hrest : Forall (fun x => le r x = true) (c :: rest)).
      { constructor; [exact Hrc|].
        eapply Forall_impl; [|exact Hall]. simpl.
        intros x Hx. exact (le_trans _ _ _ Hrc Hx). }
      assert (Hkept : Forall (fun x => le r x = true) (filter p (c :: rest))).
      { rewrite Forall_forall in *. intros x Hx.
        apply Hrest. apply filter_In in Hx. exact (proj1 Hx). }
      change (filter p (r :: c :: rest)
              = if p r then SQL.place le r (filter p (c :: rest))
                else filter p (c :: rest)).
      rewrite (place_first r _ Hkept).
      change (filter p (r :: c :: rest))
        with (if p r then r :: filter p (c :: rest) else filter p (c :: rest)).
      reflexivity.
    + simpl. rewrite IH. destruct (p c), (p r); simpl; try reflexivity.
      now rewrite Hrc.
Qed.

Lemma order_by_filter (l : list row) :
  filter p (SQL.order_by le l) = SQL.order_by le (filter p l).
Proof.
  induction l as [|r rest IH]; simpl; [reflexivity|].
  rewrite place_filter by (apply order_by_sorted; assumption).
  rewrite IH. now destruct (p r).
Qed.

End OrderByFilter.

Lemma filter_entries (q : entry -> bool) (l : list row) :
  filter q (map entry_of l) = map entry_of (filter (fun r => q (entry_of r)) l).
Proof.
  induction l as [|r rest IH]; simpl; [reflexivity|].
  destruct (q (entry_of r)); simpl; now rewrite IH.
Qed.

(** X14. The listing after a deletion is the listing before without the
    entries of that id, in the same order: [getAllWeights()] after
    [deleteWeight(id)] is [getAllWeights()] before, filtered. *)
Theorem getAllWeights_after_deleteWeight (x : number) (s : store) :
  getAllWeights (snd (deleteWeight x s))
  = filter (fun e => negb (SQL.id_is x (entry_id e))) (getAllWeights s).
Proof.
  unfold getAllWeights, deleteWeight, SQL.delete_where. simpl.
  rewrite filter_entries. f_equal. symmetry.
  apply (order_by_filter SQL.date_asc date_asc_total date_asc_trans).
Qed.

Lemma sorted_last {B : Type} (R : B -> B -> Prop) (front : list B) (x : B) :
  StronglySorted R (front ++ [x]) -> Forall (fun a => R a x) front.
Proof.
  induction front as [|a rest IH]; simpl; intros H; [constructor|].
  inversion H as [|? ? Hs Hall]; subst.
  constructor; [|now apply IH].
  rewrite Forall_forall in Hall. apply Hall. apply in_or_app. right. now left.
Qed.

Lemma same_date_same_row (l : list row) (a b : row) :
  NoDup (map date l) -> In a l -> In b l -> date a = date b -> a = b.
Proof.
  induction l as [|c rest IH]; simpl; [contradiction|].
  intros Hnd Ha Hb E. inversion Hnd as [|? ? Hnotin Hnd']; subst.
  destruct Ha as [Ha|Ha], Hb as [Hb|Hb]; subst.
  - reflexivity.
  - exfalso. apply Hnotin. rewrite E. now apply in_map.
  - exfalso. apply Hnotin. rewrite <- E. now apply in_map.
  - now apply IH.
Qed.

Lemma latest_is_max (s : store) (r : row) :
  getLatestWeight s = Some r ->
  In r (rows s) /\
  forall c, In c (rows s) -> (date c <=? date r)%string = true.
Proof.
  unfold getLatestWeight. intros H.
  pose proof (order_by_perm SQL.date_desc (rows s)) as Hp.
  pose proof (order_by_sorted SQL.date_desc date_desc_total date_desc_trans
                (rows s)) as Hs.
  destruct (SQL.order_by SQL.date_desc (rows s)) as [|r0 rest]; simpl in H;
    [discriminate|].
  injection H as H. subst r0. split.
  - apply (Permutation_in r Hp). now left.
  - intros c Hc. apply (Permutation_in c (Permutation_sym Hp)) in Hc.
    inversion Hs as [|? ? _ Hall]; subst. rewrite Forall_forall in Hall.
    destruct Hc as [Hc|Hc]; [subst; apply string_leb_refl | now apply Hall].
Qed.

(** X15. The latest entry is the last of the listing: on a table with one
    row per date, the row [getLatestWeight()] returns is the one whose id,
    weight and date end the array [getAllWeights()] returns. *)
Theorem getLatestWeight_is_last (s : store) (r : row) :
  unique_dates s ->
  getLatestWeight s = Some r ->
  exists front, getAllWeights s = (front ++ [entry_of r])%list.
Proof.
  intros Hnd Hl. destruct (latest_is_max s r Hl) as [Hin Hmax].
  unfold getAllWeights.
  pose proof (order_by_perm SQL.date_asc (rows s)) as Hp.
  pose proof (order_by_sorted SQL.date_asc date_asc_total date_asc_trans
                (rows s)) as Hs.
  assert (Hne : SQL.order_by SQL.date_asc (rows s) <> []).
  { intros E. rewrite E in Hp. apply Permutation_nil in Hp.
    rewrite Hp in Hin. contradiction. }
  destruct (exists_last Hne) as [front [r2 E]]. rewrite E in *.
  assert (H2 : In r2 (rows s)).
  { apply (Permutation_in r2 Hp). apply in_or_app. right. now left. }
  assert (Hle : (date r <=? date r2)%string = true).
  { apply (Permutation_in r (Permutation_sym Hp)) in Hin.
    apply in_app_or in Hin. destruct Hin as [Hin|[Hin|[]]].
    - pose proof (sorted_last _ _ _ Hs) as Hall.
      rewrite Forall_forall in Hall. exact (Hall r Hin).
    - subst. apply string_leb_refl. }
  assert (Er : r2 = r).
  { apply (same_date_same_row (rows s)); try assumption.
    apply String.leb_antisym; [now apply Hmax | exact Hle]. }
  subst r2. exists (map entry_of front). now rewrite map_app.
Qed.

(** X15, at the table of the scenario: the latest entry is that of
    2024-01-01, the last of the listing. *)
Lemma getLatestWeight_is_last_witness :
  exists front,
    getAllWeights
      (mkStore [mkRow 1 (S754_finite false 76 0) "2024-01-01" "t1";
                mkRow 2 (S754_finite false 74 0) "2023-12-31" "t3"] 2)
    = (front ++ [mkEntry 1 (S754_finite false 76 0) "2024-01-01"])%list.
Proof.
  apply (getLatestWeight_is_last
           (mkStore [mkRow 1 (S754_finite false 76 0) "2024-01-01" "t1";
                     mkRow 2 (S754_finite false 74 0) "2023-12-31" "t3"] 2)
           (mkRow 1 (S754_finite false 76 0) "2024-01-01" "t1")).
  - unfold unique_dates. simpl. repeat constructor; simpl; intuition discriminate.
  - reflexivity.
Defined.




Lemma place_map (le : row -> row -> bool) (f : row -> row) (r : row)
  (l : list row) :
  (forall a b, le (f a) (f b) = le a b) ->
  SQL.place le (f r) (map f l) = map f (SQL.place le r l).
Proof.
  intros Hf. induction l as [|c rest IH]; simpl; [reflexivity|].
  rewrite Hf. destruct (le r c); simpl; [reflexivity | now rewrite IH].
Qed.

Lemma order_by_map (le : row -> row -> bool) (f : row -> row) (l : list row) :
  (forall a b, le (f a) (f b) = le a b) ->
  SQL.order_by le (map f l) = map f (SQL.order_by le l).
Proof.
  intros Hf. induction l as [|r rest IH]; simpl; [reflexivity|].
  rewrite IH. now apply place_map.
Qed.

(** X17. The listing after an update is the listing before with the weight
    replaced in the entries of that id, every entry at the place it had:
    [updateWeight(id, w)], [w] not NaN, changes no date, so the order of
    [getAllWeights()] is kept. *)
Theorem getAllWeights_after_updateWeight (x w : number) (s : store) :
  isNaN w = false ->
  getAllWeights (snd (updateWeight x w s))
  = map (fun e => if SQL.id_is x (entry_id e)
                  then mkEntry (entry_id e) w (entry_date e) else e)
        (getAllWeights s).
Proof.
  intros Hw. unfold getAllWeights, updateWeight.
  rewrite update_number by assumption. simpl.
  rewrite order_by_map.
  - rewrite !map_map. apply map_ext. intros r.
    unfold SQL.has_id, entry_of. simpl. now destruct (SQL.id_is x (id r)).
  - intros a b. unfold SQL.date_asc.
    now destruct (SQL.has_id x a), (SQL.has_id x b).
Qed.

(** X17, at [updateWeight(1, 80.0)] on the table of the scenario. *)
Lemma getAllWeights_after_updateWeight_witness :
  getAllWeights
    (snd (updateWeight (S754_finite false 1 0) (S754_finite false 80 0)
            (mkStore [mkRow 1 (S754_finite false 76 0) "2024-01-01" "t1";
                      mkRow 2 (S754_finite false 74 0) "2023-12-31" "t3"] 2)))
  = [mkEntry 2 (S754_finite false 74 0) "2023-12-31";
     mkEntry 1 (S754_finite false 80 0) "2024-01-01"].
Proof.
  exact (getAllWeights_after_updateWeight (S754_finite false 1 0)
           (S754_finite false 80 0)
           (mkStore [mkRow 1 (S754_finite false 76 0) "2024-01-01" "t1";
                     mkRow 2 (S754_finite false 74 0) "2023-12-31" "t3"] 2)
           eq_refl).
Defined.


